(** * Caterine content-management backend: settings service and pagination

    A shallow embedding of the TypeScript sources

    - [utils/helpers.ts]           ([getPaginationMeta]),
    - [models/SiteSettings.ts]     (the [pre('save')] hook),
    - [models/Admin.ts]            (the [pre(/^find/)] hook, [correctPassword]),
    - [services/imageService.ts]   ([ImageService]),
    - [services/adminService.ts]   ([AdminService], in its two revisions),
    - [controllers/adminController.ts] ([AdminController.login]),

    followed by the properties of the specification that concern them.

    Conventions of the embedding.

    - A JavaScript value is a [JsValue]; a JavaScript object used as a
      dictionary is a [gmap string JsValue], so that two objects with the same
      properties are equal and the enumeration order of keys is not observable.
    - A Mongoose collection is the list of its documents in insertion order.
      No service function ever deletes a settings document, hence the [_id]
      of a document is its position in the collection.
    - The document database accepts every document: schema validation, schema
      casting, timestamps and the schema defaults other than [isActive] belong
      to the store and are not modelled.
    - Asynchronous functions are run to completion one after the other; a
      service call is a function from the state of the world to a result (a
      value or a thrown [AppError]) and the next state of the world. *)

From Stdlib Require Import ZArith QArith Qround Lia Ascii.
From stdpp Require Import gmap strings list fin_maps pretty.

#[local] Set Warnings "-register-all".
#[local] Open Scope Z_scope.

(* ===================================================================== *)
(** ** JavaScript values                                                   *)
(* ===================================================================== *)

Module Js.

(** Numbers are rationals: the sources only compare, divide and round
    them.  [NaN] and the infinities do not occur in what is modelled. *)
Inductive JsValue : Type :=
  | JUndefined
  | JNull
  | JBool (b : bool)
  | JNum (q : Q)
  | JStr (s : string)
  | JArr (items : list JsValue)
  | JObj (props : gmap string JsValue).

(** [typeof v === 'object' && v !== null]. *)
Definition is_object (v : JsValue) : bool :=
  match v with
  | JArr _ | JObj _ => true
  | _ => false
  end.

(** [Array.isArray(v)]. *)
Definition isArray (v : JsValue) : bool :=
  match v with
  | JArr _ => true
  | _ => false
  end.

(** [!!v]. *)
Definition truthy (v : JsValue) : bool :=
  match v with
  | JUndefined | JNull => false
  | JBool b => b
  | JNum q => negb (Qeq_bool q 0)
  | JStr s => negb (String.eqb s "")
  | JArr _ | JObj _ => true
  end.

(** A property read [o[k]] on a dictionary: a missing key reads
    [undefined]. *)
Definition get (o : gmap string JsValue) (k : string) : JsValue :=
  default JUndefined (o !! k).

(** [v?.k] and [v.k] on a value that is known to be an object: the own
    property of an object, [undefined] on everything else. *)
Definition prop (v : JsValue) (k : string) : JsValue :=
  match v with
  | JObj m => get m k
  | _ => JUndefined
  end.

(** The own enumerable properties that an object spread [{...v}] copies:
    the properties of an object, the indices of an array. *)
Definition own_props (v : JsValue) : gmap string JsValue :=
  match v with
  | JObj m => m
  | JArr l => list_to_map (imap (fun i x => (pretty i, x)) l)
  | _ => ∅
  end.

(** [{...a, ...b}]: the properties of [b] win. *)
Definition spread2 (a b : JsValue) : JsValue :=
  JObj (own_props b ∪ own_props a).

(** [o.k = x] on a sub-document.  Sub-documents are objects; on any other
    value the assignment is left without effect. *)
Definition set_prop (v : JsValue) (k : string) (x : JsValue) : JsValue :=
  match v with
  | JObj m => JObj (<[k := x]> m)
  | _ => v
  end.

(** An object literal some of whose property values may be [undefined]
    (here [None]); Mongoose ignores such properties. *)
Definition literal (l : list (string * option JsValue)) : gmap string JsValue :=
  list_to_map (omap (fun '(k, o) => pair k <$> o) l).

End Js.
Import Js.

(* ===================================================================== *)
(** ** utils/helpers.ts                                                    *)
(* ===================================================================== *)

Module Helpers.

Record PaginationMeta : Type := {
  total : Z;
  page : Z;
  limit : Z;
  totalPages : Z;
  hasNextPage : bool;
  hasPrevPage : bool
}.

(** [Math.ceil]. *)
Definition Math_ceil (q : Q) : Z := Qceiling q.

(** [getPaginationMeta(total, page, limit)].  The arguments are counts,
    hence integers; their quotient is taken in the rationals. *)
Definition getPaginationMeta (total page limit : Z) : PaginationMeta :=
  let totalPages := Math_ceil (inject_Z total / inject_Z limit) in
  let hasNextPage := page <? totalPages in
  let hasPrevPage := page >? 1 in
  {| total := total;
     page := page;
     limit := limit;
     totalPages := totalPages;
     hasNextPage := hasNextPage;
     hasPrevPage := hasPrevPage |}.

End Helpers.

(* ===================================================================== *)
(** ** The world: collections, object store, console                       *)
(* ===================================================================== *)

(** [utils/appError.ts] is not part of the sources at hand; only its
    constructor [new AppError(message, statusCode)] is used. *)
Record AppError : Type := {
  message : string;
  statusCode : Z
}.

(** [express-fileupload]'s [UploadedFile], restricted to the properties that
    the services read.  [data] is the in-memory buffer, absent when the
    middleware did not provide one. *)
Record UploadedFile : Type := {
  file_name : string;
  mimetype : string;
  size : Z;
  data : option string
}.

(** What a handler finds under [req.files.image]: nothing, one file, or an
    array of files. *)
Inductive FileArg : Type :=
  | NoFile
  | OneFile (f : UploadedFile)
  | ManyFiles (fs : list UploadedFile).

(** [ImageUploadResult]. *)
Record ImageUploadResult : Type := {
  url : string;
  fileId : string
}.

(** A request sent to the object store (Cloudinary). *)
Inductive CloudCall : Type :=
  | Destroy (fileId : JsValue)
  | Upload (file : UploadedFile) (folder : string).

(** The error object with which a call to the object store rejects. *)
Record CloudError : Type := {
  http_code : option Z;
  error_message : string
}.

(** The object store is an external collaborator: its answer to a request
    may depend on every request it received before.  [None] from
    [uploader_destroy] is a resolved promise, [Some e] a rejected one. *)
Record Cloudinary : Type := {
  uploader_destroy : list CloudCall -> JsValue -> option CloudError;
  uploader_upload :
    list CloudCall -> UploadedFile -> string -> CloudError + ImageUploadResult
}.

(** [models/Admin.ts]: an admin document.  [active] is absent, [true] or
    [false]; [lastLoginAt] is a date in milliseconds. *)
Record Admin : Type := {
  admin_id : string;
  name : string;
  email : string;
  password : string;
  active : option bool;
  lastLoginAt : option Z
}.

(** The state on which the services act: the two collections, the requests
    received by the object store (oldest first) and the lines written with
    [console.error]. *)
Record World : Type := {
  siteSettings : list (gmap string JsValue);
  admins : list Admin;
  cloudCalls : list CloudCall;
  stderr : list string
}.

(** A service call: the result is a thrown [AppError] or a value; the
    state changes made before a throw stay. *)
Definition Svc (A : Type) : Type := World -> (AppError + A) * World.

#[export] Instance Svc_ret : MRet Svc :=
  fun A (x : A) w => (inr x, w).

#[export] Instance Svc_bind : MBind Svc :=
  fun A B (f : A -> Svc B) (m : Svc A) w =>
    match m w with
    | (inl e, w') => (inl e, w')
    | (inr x, w') => f x w'
    end.

Definition throw {A : Type} (e : AppError) : Svc A :=
  fun w => (inl e, w).

Definition gets {A : Type} (f : World -> A) : Svc A :=
  fun w => (inr (f w), w).

Definition modify (f : World -> World) : Svc unit :=
  fun w => (inr tt, f w).

Definition set_siteSettings (l : list (gmap string JsValue)) (w : World) : World :=
  {| siteSettings := l; admins := admins w;
     cloudCalls := cloudCalls w; stderr := stderr w |}.

Definition set_admins (l : list Admin) (w : World) : World :=
  {| siteSettings := siteSettings w; admins := l;
     cloudCalls := cloudCalls w; stderr := stderr w |}.

Definition record_call (c : CloudCall) (w : World) : World :=
  {| siteSettings := siteSettings w; admins := admins w;
     cloudCalls := cloudCalls w ++ [c]; stderr := stderr w |}.

(** [console.error(line)]. *)
Definition console_error (line : string) : Svc unit :=
  modify (fun w =>
    {| siteSettings := siteSettings w; admins := admins w;
       cloudCalls := cloudCalls w; stderr := stderr w ++ [line] |}).

(* ===================================================================== *)
(** ** models/SiteSettings.ts                                              *)
(* ===================================================================== *)

Module SiteSettings.

(** A document held in memory by a service function: the position of its
    record in the collection, Mongoose's [isNew] flag and its fields. *)
Record Document : Type := {
  _id : nat;
  isNew : bool;
  fields : gmap string JsValue
}.

Definition with_fields (d : Document) (f : gmap string JsValue) : Document :=
  {| _id := _id d; isNew := isNew d; fields := f |}.

(** A stored record matches the filter [{ isActive: true }]. *)
Definition is_active (r : gmap string JsValue) : bool :=
  match r !! "isActive" with
  | Some (JBool true) => true
  | _ => false
  end.

(** [SiteSettings.findOne({ isActive: true })]. *)
Definition findOne_isActive : Svc (option Document) :=
  gets (fun w =>
    (fun '(i, r) => {| _id := i; isNew := false; fields := r |})
      <$> list_find (fun r => Is_true (is_active r)) (siteSettings w)).

(** [SiteSettings.findById(id)]. *)
Definition findById (id : nat) : Svc (option Document) :=
  gets (fun w =>
    (fun r => {| _id := id; isNew := false; fields := r |})
      <$> siteSettings w !! id).

(** [SiteSettings.updateMany({ _id: { $ne: id } }, { isActive: false })]. *)
Definition updateMany_ne_id_deactivate (id : nat) : Svc unit :=
  modify (fun w =>
    set_siteSettings
      (imap (fun i r => if decide (i = id) then r
                        else <["isActive" := JBool false]> r)
            (siteSettings w)) w).

(** [SiteSettings.updateMany({}, { isActive: false })]. *)
Definition updateMany_deactivate : Svc unit :=
  modify (fun w =>
    set_siteSettings (insert "isActive" (JBool false) <$> siteSettings w) w).

(** The [pre('save')] hook: "Ensure only one active settings document
    exists". *)
Definition pre_save (this : Document) : Svc unit :=
  if truthy (get (fields this) "isActive") && isNew this
  then updateMany_ne_id_deactivate (_id this)
  else mret tt.

(** [doc.save()]: the hook runs, then a new document is inserted at the
    end of the collection and an existing one overwrites its record. *)
Definition save (this : Document) : Svc Document :=
  pre_save this;;
  modify (fun w =>
    set_siteSettings
      (if isNew this then siteSettings w ++ [fields this]
       else <[_id this := fields this]> (siteSettings w)) w);;
  mret {| _id := _id this; isNew := false; fields := fields this |}.

(** The schema default [isActive: { default: true }], applied to a
    document that comes without a value for it. *)
Definition with_defaults (input : gmap string JsValue) : gmap string JsValue :=
  match get input "isActive" with
  | JUndefined => <["isActive" := JBool true]> input
  | _ => input
  end.

(** [SiteSettings.create(input)]. *)
Definition create (input : gmap string JsValue) : Svc Document :=
  n ← gets (fun w => length (siteSettings w));
  save {| _id := n; isNew := true; fields := with_defaults input |}.

(** [doc.populate('updatedBy', 'name email')]: the reference is replaced
    by the admin's [_id], [name] and [email].  The lookup is a [find] on
    the [Admin] model, whose [pre(/^find/)] hook hides the admins with
    [active: false]; a reference that resolves to nothing becomes [null]. *)
Definition populate_updatedBy (d : Document) : Svc Document :=
  gets (fun w =>
    match fields d !! "updatedBy" with
    | Some (JStr id) =>
        let found :=
          List.find (fun a => String.eqb (admin_id a) id
                              && negb (bool_decide (active a = Some false)))
                    (admins w) in
        with_fields d
          (<["updatedBy" :=
               match found with
               | Some a => JObj {[ "_id" := JStr (admin_id a);
                                   "name" := JStr (name a);
                                   "email" := JStr (email a) ]}
               | None => JNull
               end]> (fields d))
    | _ => d
    end).

End SiteSettings.

(* ===================================================================== *)
(** ** services/imageService.ts                                            *)
(* ===================================================================== *)

(** [config.fileUpload.maxFileSize], and the text of
    [maxFileSize / 1024 / 1024] as it appears in an error message. *)
Record Config : Type := {
  maxFileSize : Z;
  maxFileSizeMB : string
}.

Module ImageService.
Section WithCloud.

Context (cloudinary : Cloudinary) (config : Config).

Definition allowedTypes : list string :=
  ["image/jpeg"; "image/jpg"; "image/png"; "image/webp"].

(** The body of the [try] block of [uploadImage]: a thrown [AppError] is
    an error of the service call, a rejection of the object store is the
    left injection of the value.  The parameter has the type of the
    TypeScript signature, so [!file] never holds. *)
Definition uploadImage_try (file : UploadedFile) (folder : string)
  : Svc (CloudError + ImageUploadResult) :=
  if String.eqb (file_name file) "" || String.eqb (mimetype file) ""
     || (size file =? 0)
  then throw {| message := "Invalid file information"; statusCode := 400 |}
  else if negb (bool_decide (mimetype file ∈ allowedTypes))
  then throw {| message := "Only JPEG, PNG, and WebP images are allowed";
                statusCode := 400 |}
  else if size file >? maxFileSize config
  then throw {| message := "File size too large. Maximum size is "
                           +:+ maxFileSizeMB config +:+ "MB";
                statusCode := 400 |}
  else match data file with
       | None => throw {| message := "File data not available";
                          statusCode := 500 |}
       | Some _ =>
           calls ← gets cloudCalls;
           modify (record_call (Upload file folder));;
           mret (uploader_upload cloudinary calls file folder)
       end.

(** [ImageService.uploadImage(file, folder)]. *)
Definition uploadImage (file : UploadedFile) (folder : string)
  : Svc ImageUploadResult :=
  fun w =>
    match uploadImage_try file folder w with
    | (inr (inr uploadResult), w') => (inr uploadResult, w')
    | (inl error, w') =>
        (console_error "Cloudinary upload error details:";;
         throw error) w'
    | (inr (inl error), w') =>
        (console_error "Cloudinary upload error details:";;
         let errorMessage :=
           if bool_decide (http_code error = Some 401)
           then "Cloudinary authentication failed. Please check your Cloudinary credentials."
           else if String.eqb (error_message error) ""
                then "Image upload failed"
                else error_message error in
         throw {| message := errorMessage;
                  statusCode := match http_code error with
                                | Some c => if c =? 0 then 500 else c
                                | None => 500
                                end |}) w'
    end.

(** [ImageService.deleteImage(fileId)]: a rejection of the object store is
    caught and logged, never rethrown. *)
Definition deleteImage (fileId : JsValue) : Svc unit :=
  if negb (truthy fileId) then mret tt
  else
    calls ← gets cloudCalls;
    modify (record_call (Destroy fileId));;
    match uploader_destroy cloudinary calls fileId with
    | None => mret tt
    | Some error =>
        console_error ("Failed to delete image from Cloudinary: "
                       +:+ error_message error)
    end.

Definition uploadBackgroundImage (file : UploadedFile) : Svc ImageUploadResult :=
  uploadImage file "caterine/backgrounds".

Definition uploadAboutSectionImage (file : UploadedFile) : Svc ImageUploadResult :=
  uploadImage file "caterine/about".

(** [ImageService.validateImageFile(file)]: a type guard; the embedding
    returns the file that the guard narrows to. *)
Definition validateImageFile (file : FileArg) : Svc UploadedFile :=
  match file with
  | NoFile => throw {| message := "No file uploaded"; statusCode := 400 |}
  | ManyFiles _ =>
      throw {| message := "Multiple files not allowed"; statusCode := 400 |}
  | OneFile f => mret f
  end.

End WithCloud.
End ImageService.

(* ===================================================================== *)
(** ** services/adminService.ts                                            *)
(* ===================================================================== *)

(** [{ url, fileId }] as stored in a settings document. *)
Definition image_object (url fileId : JsValue) : JsValue :=
  JObj {[ "url" := url; "fileId" := fileId ]}.

Definition image_of_upload (r : ImageUploadResult) : JsValue :=
  image_object (JStr (url r)) (JStr (fileId r)).

(** [arr[i]].  The schema makes [menuChildWithImage] an array: indices are
    read on arrays only, any other value reads [undefined]. *)
Definition index (v : JsValue) (i : Z) : JsValue :=
  match v with
  | JArr l => if i <? 0 then JUndefined
              else default JUndefined (l !! Z.to_nat i)
  | _ => JUndefined
  end.

(** The elements of an array value. *)
Definition elements_of (v : JsValue) : list JsValue :=
  match v with
  | JArr l => l
  | _ => []
  end.

(** The argument of [addMenuChildItem]. *)
Record MenuItemInput : Type := {
  item_title : string;
  item_content : string;
  item_price : Q;
  item_image : option ImageUploadResult
}.

(** The argument of [updateMenuChildItem]: every property is optional. *)
Record MenuItemUpdate : Type := {
  upd_title : option string;
  upd_content : option string;
  upd_price : option Q;
  upd_image : option ImageUploadResult
}.

(** [AdminLoginInput] of [types/admin.ts]. *)
Record AdminLoginInput : Type := {
  login_email : string;
  login_password : string
}.

Definition settings_not_found : AppError :=
  {| message := "Site settings not found"; statusCode := 404 |}.

Definition menu_item_not_found : AppError :=
  {| message := "Menu item not found"; statusCode := 404 |}.

Module AdminService.
Import SiteSettings.

Section Login.

(** [bcrypt.compare] and [signToken] (a JSON web token signed with the
    configured secret) are primitives of external libraries. *)
Context (bcrypt_compare : string -> string -> bool)
        (signToken : string -> string).

(** [admin.correctPassword(candidatePassword, userPassword)]. *)
Definition correctPassword (candidatePassword userPassword : string) : bool :=
  bcrypt_compare candidatePassword userPassword.

(** [Admin.findOne({ email, active: { $ne: false } })]; the
    [pre(/^find/)] hook of the model adds the same condition on [active]. *)
Definition Admin_findOne (e : string) : Svc (option (nat * Admin)) :=
  gets (fun w =>
    list_find (fun a => email a = e /\ active a <> Some false) (admins w)).

(** [admin.save({ validateBeforeSave: false })]: the password is not
    modified, so the [pre('save')] hook of the model does not hash. *)
Definition Admin_save (i : nat) (a : Admin) : Svc unit :=
  modify (fun w => set_admins (<[i := a]> (admins w)) w).

(** [AdminService.loginAdmin(credentials)]; [now] is the value of
    [new Date()]. *)
Definition loginAdmin (now : Z) (credentials : AdminLoginInput)
  : Svc (Admin * string) :=
  found ← Admin_findOne (login_email credentials);
  match found with
  | None =>
      throw {| message := "Incorrect email or password"; statusCode := 401 |}
  | Some (i, admin) =>
      if negb (correctPassword (login_password credentials) (password admin))
      then throw {| message := "Incorrect email or password";
                    statusCode := 401 |}
      else
        let admin :=
          {| admin_id := admin_id admin; name := name admin;
             email := email admin; password := password admin;
             active := active admin; lastLoginAt := Some now |} in
        Admin_save i admin;;
        let token := signToken (admin_id admin) in
        mret (admin, token)
  end.

End Login.

Section Settings.

(** The loop body of [updateSiteSettings]: what the assignment of one key
    of the payload does to the fields of the active document. *)
Definition assign_key (settings : gmap string JsValue)
           (key : string) (value : JsValue) : gmap string JsValue :=
  match value with
  | JUndefined => settings
  | _ =>
      if String.eqb key "menuChildWithImage" && isArray value
      then <[key := value]> settings
      else if is_object value
      then
        let currentValue := get settings key in
        if is_object currentValue
        then <[key := spread2 currentValue value]> settings
        else settings
      else <[key := value]> settings
  end.

(** [Object.keys(updateData).forEach(key => ...)]. *)
Definition assign_all (settings updateData : gmap string JsValue)
  : gmap string JsValue :=
  foldl (fun acc '(key, value) => assign_key acc key value)
        settings (map_to_list updateData).

(** [AdminService.updateSiteSettings(adminId, updateData)]. *)
Definition updateSiteSettings (adminId : string)
           (updateData : gmap string JsValue) : Svc Document :=
  settings ← findOne_isActive;
  settings ← match settings with
              | Some settings =>
                  save (with_fields settings
                          (<["updatedBy" := JStr adminId]>
                             (assign_all (fields settings) updateData)))
              | None =>
                  create (<["updatedBy" := JStr adminId]> updateData)
              end;
  populate_updatedBy settings.

(** The object literal that [restoreSiteSettings] hands to [create]. *)
Definition restored_input (adminId : string) (previousSettings : Document)
  : gmap string JsValue :=
  literal
    [ ("backgroundImage", fields previousSettings !! "backgroundImage");
      ("heroSectionText", fields previousSettings !! "heroSectionText");
      ("aboutSectionText", fields previousSettings !! "aboutSectionText");
      ("contactInfo", fields previousSettings !! "contactInfo");
      ("socialMedia", fields previousSettings !! "socialMedia");
      ("updatedBy", Some (JStr adminId));
      ("isActive", Some (JBool true)) ].

(** [AdminService.restoreSiteSettings(adminId, settingsId)]. *)
Definition restoreSiteSettings (adminId : string) (settingsId : nat)
  : Svc Document :=
  previousSettings ← findById settingsId;
  match previousSettings with
  | None =>
      throw {| message := "Settings version not found"; statusCode := 404 |}
  | Some previousSettings =>
      updateMany_deactivate;;
      restoredSettings ← create (restored_input adminId previousSettings);
      populate_updatedBy restoredSettings
  end.

End Settings.

Section Images.

Context (cloudinary : Cloudinary) (config : Config).

(** The common tail of the functions below: [settings.updatedBy = adminId;
    await settings.save(); await settings.populate(...); return settings]. *)
Definition save_as (adminId : string) (settings : Document)
           (fields' : gmap string JsValue) : Svc Document :=
  settings ← save (with_fields settings
                     (<["updatedBy" := JStr adminId]> fields'));
  populate_updatedBy settings.

(** [if (settings.<field>?.fileId) await ImageService.deleteImage(...)]. *)
Definition delete_previous (image : JsValue) : Svc unit :=
  if truthy (prop image "fileId")
  then ImageService.deleteImage cloudinary (prop image "fileId")
  else mret tt.

(** The shape shared by [updateBackgroundImage], [updateAboutSectionImage]
    and [updateMenuMainImage], which differ in the field they write and in
    the upload function they call. *)
Definition replace_image (field : string)
           (upload : UploadedFile -> Svc ImageUploadResult)
           (adminId : string) (file : FileArg) : Svc Document :=
  file ← ImageService.validateImageFile file;
  settings ← findOne_isActive;
  match settings with
  | None => throw settings_not_found
  | Some settings =>
      delete_previous (get (fields settings) field);;
      uploadResult ← upload file;
      save_as adminId settings
        (<[field := image_of_upload uploadResult]> (fields settings))
  end.

(** The shape shared by [removeBackgroundImage], [removeAboutSectionImage]
    and [removeMenuMainImage], which differ in the field they reset and in
    the [url] they reset it to. *)
Definition reset_image (field : string) (default_url : JsValue)
           (adminId : string) : Svc Document :=
  settings ← findOne_isActive;
  match settings with
  | None => throw settings_not_found
  | Some settings =>
      delete_previous (get (fields settings) field);;
      save_as adminId settings
        (<[field := image_object default_url JNull]> (fields settings))
  end.

(** [AdminService.updateBackgroundImage(adminId, file)]. *)
Definition updateBackgroundImage : string -> FileArg -> Svc Document :=
  replace_image "backgroundImage"
    (ImageService.uploadBackgroundImage cloudinary config).

(** [AdminService.updateAboutSectionImage(adminId, file)]. *)
Definition updateAboutSectionImage : string -> FileArg -> Svc Document :=
  replace_image "aboutSectionImage"
    (ImageService.uploadAboutSectionImage cloudinary config).

(** [AdminService.removeBackgroundImage(adminId)]. *)
Definition removeBackgroundImage : string -> Svc Document :=
  reset_image "backgroundImage" (JStr "default-bg.jpg").

(** [AdminService.removeAboutSectionImage(adminId)]. *)
Definition removeAboutSectionImage : string -> Svc Document :=
  reset_image "aboutSectionImage" JNull.

(** [AdminService.updateMenuMainImage(adminId, file)]. *)
Definition updateMenuMainImage : string -> FileArg -> Svc Document :=
  replace_image "menuMainImage"
    (fun file => ImageService.uploadImage cloudinary config file
                   "caterine/menu-main").

(** [AdminService.removeMenuMainImage(adminId)]. *)
Definition removeMenuMainImage : string -> Svc Document :=
  reset_image "menuMainImage" JNull.

(** [AdminService.addMenuChildItem(adminId, itemData)]. *)
Definition addMenuChildItem (adminId : string) (itemData : MenuItemInput)
  : Svc Document :=
  settings ← findOne_isActive;
  match settings with
  | None => throw settings_not_found
  | Some settings =>
      let menu :=
        if negb (truthy (get (fields settings) "menuChildWithImage"))
        then []
        else elements_of (get (fields settings) "menuChildWithImage") in
      let item :=
        JObj {[ "title" := JStr (item_title itemData);
                "content" := JStr (item_content itemData);
                "price" := JNum (item_price itemData);
                "image" := match item_image itemData with
                           | Some image => image_of_upload image
                           | None => image_object JNull JNull
                           end ]} in
      save_as adminId settings
        (<["menuChildWithImage" := JArr (menu ++ [item])]> (fields settings))
  end.

(** [!settings.menuChildWithImage || !settings.menuChildWithImage[itemIndex]]. *)
Definition no_menu_item (settings : Document) (itemIndex : Z) : bool :=
  negb (truthy (get (fields settings) "menuChildWithImage"))
  || negb (truthy (index (get (fields settings) "menuChildWithImage") itemIndex)).

(** [settings.menuChildWithImage[itemIndex] = item], as the effect of the
    property assignments on that element. *)
Definition set_menu_item (settings : Document) (itemIndex : Z)
           (item : JsValue) : gmap string JsValue :=
  <["menuChildWithImage" :=
      JArr (<[Z.to_nat itemIndex := item]>
              (elements_of (get (fields settings) "menuChildWithImage")))]>
    (fields settings).

Definition assign_opt (k : string) (x : option JsValue) (item : JsValue)
  : JsValue :=
  match x with
  | Some x => set_prop item k x
  | None => item
  end.

(** [AdminService.updateMenuChildItem(adminId, itemIndex, itemData)]. *)
Definition updateMenuChildItem (adminId : string) (itemIndex : Z)
           (itemData : MenuItemUpdate) : Svc Document :=
  settings ← findOne_isActive;
  match settings with
  | None => throw settings_not_found
  | Some settings =>
      if no_menu_item settings itemIndex then throw menu_item_not_found
      else
        let item := index (get (fields settings) "menuChildWithImage") itemIndex in
        (if bool_decide (is_Some (upd_image itemData))
         then delete_previous (prop item "image")
         else mret tt);;
        let item := assign_opt "title" (JStr <$> upd_title itemData) item in
        let item := assign_opt "content" (JStr <$> upd_content itemData) item in
        let item := assign_opt "price" (JNum <$> upd_price itemData) item in
        let item := assign_opt "image" (image_of_upload <$> upd_image itemData) item in
        save_as adminId settings (set_menu_item settings itemIndex item)
  end.

(** [AdminService.updateMenuChildImage(adminId, itemIndex, file)]. *)
Definition updateMenuChildImage (adminId : string) (itemIndex : Z)
           (file : FileArg) : Svc Document :=
  file ← ImageService.validateImageFile file;
  settings ← findOne_isActive;
  match settings with
  | None => throw settings_not_found
  | Some settings =>
      if no_menu_item settings itemIndex then throw menu_item_not_found
      else
        let item := index (get (fields settings) "menuChildWithImage") itemIndex in
        delete_previous (prop item "image");;
        uploadResult ← ImageService.uploadImage cloudinary config file
                         "caterine/menu-items";
        save_as adminId settings
          (set_menu_item settings itemIndex
             (set_prop item "image" (image_of_upload uploadResult)))
  end.

(** [AdminService.removeMenuChildImage(adminId, itemIndex)]. *)
Definition removeMenuChildImage (adminId : string) (itemIndex : Z)
  : Svc Document :=
  settings ← findOne_isActive;
  match settings with
  | None => throw settings_not_found
  | Some settings =>
      if no_menu_item settings itemIndex then throw menu_item_not_found
      else
        let item := index (get (fields settings) "menuChildWithImage") itemIndex in
        delete_previous (prop item "image");;
        save_as adminId settings
          (set_menu_item settings itemIndex
             (set_prop item "image" (image_object JNull JNull)))
  end.

(** [AdminService.deleteMenuChildItem(adminId, itemIndex)]; the element is
    removed with [splice(itemIndex, 1)]. *)
Definition deleteMenuChildItem (adminId : string) (itemIndex : Z)
  : Svc Document :=
  settings ← findOne_isActive;
  match settings with
  | None => throw settings_not_found
  | Some settings =>
      if no_menu_item settings itemIndex then throw menu_item_not_found
      else
        let item := index (get (fields settings) "menuChildWithImage") itemIndex in
        delete_previous (prop item "image");;
        save_as adminId settings
          (<["menuChildWithImage" :=
               JArr (delete (Z.to_nat itemIndex)
                       (elements_of (get (fields settings) "menuChildWithImage")))]>
             (fields settings))
  end.

End Images.
End AdminService.

(** The other revision of [services/adminService.ts], from before the menu
    section was added.  It differs from the one above in the loop of
    [updateSiteSettings], which has no case for [menuChildWithImage], and in
    lacking the menu functions; everything else is the same text. *)
Module AdminServiceNoMenu.
Import SiteSettings.

Definition assign_key (settings : gmap string JsValue)
           (key : string) (value : JsValue) : gmap string JsValue :=
  match value with
  | JUndefined => settings
  | _ =>
      if is_object value
      then
        let currentValue := get settings key in
        if is_object currentValue
        then <[key := spread2 currentValue value]> settings
        else settings
      else <[key := value]> settings
  end.

Definition assign_all (settings updateData : gmap string JsValue)
  : gmap string JsValue :=
  foldl (fun acc '(key, value) => assign_key acc key value)
        settings (map_to_list updateData).

Definition updateSiteSettings (adminId : string)
           (updateData : gmap string JsValue) : Svc Document :=
  settings ← findOne_isActive;
  settings ← match settings with
              | Some settings =>
                  save (with_fields settings
                          (<["updatedBy" := JStr adminId]>
                             (assign_all (fields settings) updateData)))
              | None =>
                  create (<["updatedBy" := JStr adminId]> updateData)
              end;
  populate_updatedBy settings.

End AdminServiceNoMenu.

(* ===================================================================== *)
(** ** controllers/adminController.ts                                      *)
(* ===================================================================== *)

Module AdminController.

(** What [res.status(code).json(body)] sends. *)
Record Response : Type := {
  status : Z;
  body : JsValue
}.

(** [formatResponse(status, message, data)] of [utils/helpers.ts], for a
    [data] that is given and no [meta]. *)
Definition formatResponse (status message : string) (data : JsValue) : JsValue :=
  JObj {[ "status" := JStr status; "message" := JStr message; "data" := data ]}.

Definition date_value (d : option Z) : JsValue :=
  match d with
  | Some ms => JNum (inject_Z ms)
  | None => JUndefined
  end.

(** [AdminController.login].  [catchAsync] hands a thrown error to the
    error middleware, which is the error case of the result. *)
Definition login (bcrypt_compare : string -> string -> bool)
           (signToken : string -> string) (now : Z)
           (req_body : AdminLoginInput) : Svc Response :=
  '(admin, token) ← AdminService.loginAdmin bcrypt_compare signToken now req_body;
  mret {| status := 200;
          body := formatResponse "success" "Admin login successful"
                    (JObj {[ "token" := JStr token;
                             "admin" := JObj {[ "id" := JStr (admin_id admin);
                                                "name" := JStr (name admin);
                                                "email" := JStr (email admin);
                                                "lastLoginAt" := date_value (lastLoginAt admin) ]} ]}) |}.

End AdminController.

(* ===================================================================== *)
(** ** Serial histories of settings operations                             *)
(* ===================================================================== *)

(** One request to the settings manager. *)
Inductive SettingsOp : Type :=
  | UpdateSiteSettings (adminId : string) (updateData : gmap string JsValue)
  | RestoreSiteSettings (adminId : string) (settingsId : nat)
  | UpdateBackgroundImage (adminId : string) (file : FileArg)
  | UpdateAboutSectionImage (adminId : string) (file : FileArg)
  | UpdateMenuMainImage (adminId : string) (file : FileArg)
  | UpdateMenuChildImage (adminId : string) (itemIndex : Z) (file : FileArg)
  | RemoveBackgroundImage (adminId : string)
  | RemoveAboutSectionImage (adminId : string)
  | RemoveMenuMainImage (adminId : string)
  | RemoveMenuChildImage (adminId : string) (itemIndex : Z)
  | AddMenuChildItem (adminId : string) (itemData : MenuItemInput)
  | UpdateMenuChildItem (adminId : string) (itemIndex : Z) (itemData : MenuItemUpdate)
  | DeleteMenuChildItem (adminId : string) (itemIndex : Z).

Section Histories.

Context (cloudinary : Cloudinary) (config : Config).

Definition perform (op : SettingsOp) : Svc SiteSettings.Document :=
  match op with
  | UpdateSiteSettings a d => AdminService.updateSiteSettings a d
  | RestoreSiteSettings a i => AdminService.restoreSiteSettings a i
  | UpdateBackgroundImage a f => AdminService.updateBackgroundImage cloudinary config a f
  | UpdateAboutSectionImage a f => AdminService.updateAboutSectionImage cloudinary config a f
  | UpdateMenuMainImage a f => AdminService.updateMenuMainImage cloudinary config a f
  | UpdateMenuChildImage a i f => AdminService.updateMenuChildImage cloudinary config a i f
  | RemoveBackgroundImage a => AdminService.removeBackgroundImage cloudinary a
  | RemoveAboutSectionImage a => AdminService.removeAboutSectionImage cloudinary a
  | RemoveMenuMainImage a => AdminService.removeMenuMainImage cloudinary a
  | RemoveMenuChildImage a i => AdminService.removeMenuChildImage cloudinary a i
  | AddMenuChildItem a d => AdminService.addMenuChildItem a d
  | UpdateMenuChildItem a i d => AdminService.updateMenuChildItem cloudinary a i d
  | DeleteMenuChildItem a i => AdminService.deleteMenuChildItem cloudinary a i
  end.

(** The requests are served one after the other, whether they succeed or
    throw. *)
Definition perform_all (ops : list SettingsOp) (w : World) : World :=
  foldl (fun w op => (perform op w).2) w ops.

End Histories.

(** The values of [isActive] in a payload that leave the flag of the
    active record as it is: none, [undefined], [true], or a value that the
    loop of [updateSiteSettings] drops. *)
Definition keeps_isActive (updateData : gmap string JsValue) : bool :=
  match updateData !! "isActive" with
  | None => true
  | Some (JBool b) => b
  | Some v => match v with
              | JUndefined | JArr _ | JObj _ => true
              | _ => false
              end
  end.

Definition keeps_active_flag (op : SettingsOp) : bool :=
  match op with
  | UpdateSiteSettings _ d => keeps_isActive d
  | _ => true
  end.

(** [null], booleans, numbers and strings. *)
Definition is_scalar (v : JsValue) : bool :=
  match v with
  | JNull | JBool _ | JNum _ | JStr _ => true
  | _ => false
  end.

(* ===================================================================== *)
(** ** Vocabulary of the properties                                        *)
(* ===================================================================== *)

(** A call is [stable] when it leaves the settings collection alone. *)
Definition stable {A} (m : Svc A) : Prop :=
  forall w, siteSettings (m w).2 = siteSettings w.

(** [post l m Q]: started on a world whose settings collection is [l], the
    call [m] ends, normally or with a throw, on a collection satisfying [Q]. *)
Definition post {A} (l : list (gmap string JsValue)) (m : Svc A)
           (Q : list (gmap string JsValue) -> Prop) : Prop :=
  forall w, siteSettings w = l -> Q (siteSettings (m w).2).

(** The number of active records of a collection. *)
Definition count_active (l : list (gmap string JsValue)) : nat :=
  length (filter (fun r => Is_true (SiteSettings.is_active r)) l).

(** The number of records of the world with [isActive: true]. *)
Definition active_count (w : World) : nat := count_active (siteSettings w).

(** The document that [findOne({ isActive: true })] returns on a
    collection. *)
Definition found_active (l : list (gmap string JsValue))
  : option SiteSettings.Document :=
  (fun '(i, r) => {| SiteSettings._id := i; SiteSettings.isNew := false;
                     SiteSettings.fields := r |})
    <$> list_find (fun r => Is_true (SiteSettings.is_active r)) l.

(** The value stored under key [k] of record [i] once a call has returned,
    and the value under [k] of the document it returned. *)
Definition stored_field {A} (res : (AppError + A) * World) (i : nat) (k : string)
  : option JsValue :=
  siteSettings res.2 !! i ≫= fun r => r !! k.

Definition returned_field (res : (AppError + SiteSettings.Document) * World)
           (k : string) : option JsValue :=
  match res.1 with
  | inr d => SiteSettings.fields d !! k
  | inl _ => None
  end.

(** The call returned normally. *)
Definition succeeded {A} (res : (AppError + A) * World) : bool :=
  match res.1 with
  | inr _ => true
  | inl _ => false
  end.

(** The display-content fields that a restore copies. *)
Definition restored_keys : list string :=
  ["backgroundImage"; "heroSectionText"; "aboutSectionText"; "contactInfo";
   "socialMedia"].

(* ===================================================================== *)
(** ** Sample data                                                         *)
(* ===================================================================== *)

Definition sample_hero : JsValue :=
  JObj {[ "title" := JStr "Old"; "subtitle" := JStr "S"; "buttonText" := JStr "B" ]}.

Definition sample_item (t : string) : JsValue :=
  JObj {[ "title" := JStr t; "content" := JStr "c"; "price" := JNum 5;
          "image" := image_object JNull JNull ]}.

Definition sample_settings : gmap string JsValue :=
  {[ "backgroundImage" := image_object (JStr "https://cdn/bg.jpg") (JStr "bg-1");
     "heroSectionText" := sample_hero;
     "menuChildWithImage" := JArr [sample_item "soup"; sample_item "salad"];
     "isActive" := JBool true;
     "updatedBy" := JStr "admin-1" ]}.

Definition sample_admin (id mail : string) (act : bool) : Admin :=
  {| admin_id := id; name := "Root"; email := mail; password := "hash:secret";
     active := Some act; lastLoginAt := None |}.

Definition sample_world : World :=
  {| siteSettings := [sample_settings];
     admins := [sample_admin "admin-1" "root@example.com" true;
                sample_admin "admin-2" "gone@example.com" false];
     cloudCalls := [];
     stderr := [] |}.

Definition sample_file : UploadedFile :=
  {| file_name := "bg.png"; mimetype := "image/png"; size := 2048;
     data := Some "iVBORw0KGgo=" |}.

(** An object store whose deletions always fail and whose uploads always
    succeed. *)
Definition sample_cloud : Cloudinary :=
  {| uploader_destroy := fun _ _ =>
       Some {| http_code := Some 500; error_message := "unavailable" |};
     uploader_upload := fun _ f folder =>
       inr {| url := "https://cdn/" +:+ folder +:+ "/" +:+ file_name f;
              fileId := folder +:+ "/" +:+ file_name f |} |}.

Definition sample_config : Config :=
  {| maxFileSize := 5242880; maxFileSizeMB := "5" |}.

Definition sample_compare (candidate hashed : string) : bool :=
  String.eqb ("hash:" +:+ candidate) hashed.

Definition sample_sign (id : string) : string := "jwt." +:+ id.


(* ===================================================================== *)
(** ** services/adminService.ts: admins, current settings, history         *)
(* ===================================================================== *)

(** A page of the settings history, as [getSiteSettingsHistory] returns
    it. *)
Record HistoryPage : Type := {
  history : list SiteSettings.Document;
  history_total : Z;
  history_page : Z;
  history_totalPages : Z;
  history_hasNextPage : bool;
  history_hasPrevPage : bool
}.

Module AdminServiceRest.
Import SiteSettings.

Section Admins.

(** [signToken] as before; [Admin.create(input)] is left to the model and
    the store, which validate the input, hash the password and choose the
    [_id]. *)
Context (signToken : string -> string)
        (Admin_create : gmap string JsValue -> Svc Admin).

(** [Admin.findById(id)], under the [pre(/^find/)] hook of the model. *)
Definition Admin_findById (id : string) : Svc (option Admin) :=
  gets (fun w =>
    snd <$> list_find (fun a => admin_id a = id /\ active a <> Some false)
                      (admins w)).

(** [Admin.findOne()], under the same hook. *)
Definition Admin_findOne_any : Svc (option Admin) :=
  gets (fun w =>
    snd <$> list_find (fun a => active a <> Some false) (admins w)).

(** [AdminService.getAdminById(id)]. *)
Definition getAdminById (id : string) : Svc Admin :=
  admin ← Admin_findById id;
  match admin with
  | None => throw {| message := "Admin not found"; statusCode := 404 |}
  | Some admin => mret admin
  end.

(** [AdminService.createAdmin(name, email, password)]. *)
Definition createAdmin (name email password : string) : Svc (Admin * string) :=
  existingAdmin ← AdminService.Admin_findOne email;
  match existingAdmin with
  | Some _ =>
      throw {| message := "Admin with this email already exists";
               statusCode := 400 |}
  | None =>
      admin ← Admin_create {[ "name" := JStr name; "email" := JStr email;
                              "password" := JStr password;
                              "active" := JBool true ]};
      let token := signToken (admin_id admin) in
      mret (admin, token)
  end.

(** The settings that [getCurrentSiteSettings] creates when none is
    active. *)
Definition default_settings (adminId : string) : gmap string JsValue :=
  {[ "backgroundImage" := image_object (JStr "default-bg.jpg") JNull;
     "heroSectionText" :=
       JObj {[ "title" := JStr "Welcome to Our Website";
               "subtitle" := JStr "Discover amazing features and services that will help you grow your business.";
               "buttonText" := JStr "Get Started" ]};
     "aboutSectionText" :=
       JObj {[ "title" := JStr "About Us";
               "content" := JStr "We are a dedicated team committed to providing excellent services and solutions for our clients.";
               "mission" := JStr "Our mission is to deliver innovative solutions that exceed expectations.";
               "vision" := JStr "To be the leading provider of cutting-edge technology solutions." ]};
     "aboutSectionImage" := image_object JNull JNull;
     "contactInfo" :=
       JObj {[ "email" := JStr "contact@example.com";
               "phone" := JStr "+1 (555) 123-4567";
               "address" := JStr "123 Business Street, City, State 12345" ]};
     "updatedBy" := JStr adminId ]}.

(** [AdminService.getCurrentSiteSettings()]. *)
Definition getCurrentSiteSettings : Svc Document :=
  settings ← findOne_isActive;
  match settings with
  | Some settings => populate_updatedBy settings
  | None =>
      defaultAdmin ← Admin_findOne_any;
      defaultAdmin ← match defaultAdmin with
                     | Some defaultAdmin => mret defaultAdmin
                     | None =>
                         Admin_create
                           {[ "name" := JStr "Default Admin";
                              "email" := JStr "admin@example.com";
                              "password" := JStr "defaultpassword123" ]}
                     end;
      settings ← create (default_settings (admin_id defaultAdmin));
      populate_updatedBy settings
  end.

End Admins.

Section History.

(** [.sort({ updatedAt: -1 })]: the timestamps are the store's, and so is
    the order it returns the documents in. *)
Context (sort_updatedAt_desc :
           list (nat * gmap string JsValue) -> list (nat * gmap string JsValue)).

(** [SiteSettings.find().sort({ updatedAt: -1 })]. *)
Definition find_sorted (w : World) : list Document :=
  (fun '(i, r) => {| _id := i; isNew := false; fields := r |})
    <$> sort_updatedAt_desc (imap (fun i r => (i, r)) (siteSettings w)).

(** [AdminService.getSiteSettingsHistory(page, limit)], for [page >= 1]
    and [limit >= 1]: [skip] and [limit] are then the numbers of documents
    to pass over and to return. *)
Definition getSiteSettingsHistory (page limit : Z) : Svc HistoryPage :=
  let skip := (page - 1) * limit in
  found ← gets (fun w => take (Z.to_nat limit) (drop (Z.to_nat skip) (find_sorted w)));
  history ← mapM populate_updatedBy found;
  total ← gets (fun w => Z.of_nat (length (siteSettings w)));
  let totalPages := Helpers.Math_ceil (inject_Z total / inject_Z limit) in
  mret {| history := history;
          history_total := total;
          history_page := page;
          history_totalPages := totalPages;
          history_hasNextPage := page <? totalPages;
          history_hasPrevPage := page >? 1 |}.

End History.
End AdminServiceRest.

(* ===================================================================== *)
(** ** controllers/adminController.ts: setup and section handlers          *)
(* ===================================================================== *)

(** What a settings handler sends: [res.status(code).json(formatResponse(
    'success', message, { settings }))]. *)
Record SettingsResponse : Type := {
  response_status : Z;
  response_message : string;
  response_settings : SiteSettings.Document
}.

Module AdminControllerRest.

(** [promise.catch(() => null)]. *)
Definition catch_null {A} (m : Svc A) : Svc (option A) :=
  fun w => match m w with
           | (inl _, w') => (inr None, w')
           | (inr x, w') => (inr (Some x), w')
           end.

(** [AdminController.createInitialAdmin].  The guard asks for the admin
    whose id is the text [any]; a lookup that fails, for whatever reason,
    is turned into [null] by the [catch]. *)
Definition createInitialAdmin (signToken : string -> string)
           (Admin_create : gmap string JsValue -> Svc Admin)
           (req_name req_email req_password : string)
  : Svc AdminController.Response :=
  existingAdmin ← catch_null (AdminServiceRest.getAdminById "any");
  match existingAdmin with
  | Some _ =>
      throw {| message := "Admin setup has already been completed";
               statusCode := 400 |}
  | None =>
      '(admin, token) ← AdminServiceRest.createAdmin signToken Admin_create
                          req_name req_email req_password;
      mret {| AdminController.status := 201;
              AdminController.body :=
                AdminController.formatResponse "success"
                  "Initial admin created successfully"
                  (JObj {[ "token" := JStr token;
                           "admin" := JObj {[ "id" := JStr (admin_id admin);
                                              "name" := JStr (name admin);
                                              "email" := JStr (email admin) ]} ]}) |}
  end.

(** [...(x && { x })] for a property [x] read off the request body: the
    property is written when its value is truthy. *)
Definition when_truthy (body : gmap string JsValue) (k : string)
  : string * option JsValue :=
  (k, if truthy (get body k) then Some (get body k) else None).

(** [AdminController.updateHeroSection]. *)
Definition updateHeroSection (adminId : string) (body : gmap string JsValue)
  : Svc SettingsResponse :=
  let heroSectionText :=
    literal [ when_truthy body "title"; when_truthy body "subtitle";
              when_truthy body "buttonText" ] in
  settings ← AdminService.updateSiteSettings adminId
               {[ "heroSectionText" := JObj heroSectionText ]};
  mret {| response_status := 200;
          response_message := "Hero section updated successfully";
          response_settings := settings |}.

(** [AdminController.updateAboutSection]. *)
Definition updateAboutSection (adminId : string) (body : gmap string JsValue)
  : Svc SettingsResponse :=
  let aboutSectionText :=
    literal [ when_truthy body "title"; when_truthy body "content";
              when_truthy body "mission"; when_truthy body "vision" ] in
  settings ← AdminService.updateSiteSettings adminId
               {[ "aboutSectionText" := JObj aboutSectionText ]};
  mret {| response_status := 200;
          response_message := "About section updated successfully";
          response_settings := settings |}.

(** [AdminController.updateMenuMainText]. *)
Definition updateMenuMainText (adminId : string) (body : gmap string JsValue)
  : Svc SettingsResponse :=
  let menuMainText :=
    literal [ when_truthy body "title"; when_truthy body "content" ] in
  settings ← AdminService.updateSiteSettings adminId
               {[ "menuMainText" := JObj menuMainText ]};
  mret {| response_status := 200;
          response_message := "Menu main text updated successfully";
          response_settings := settings |}.

End AdminControllerRest.

(* ===================================================================== *)
(** ** utils/helpers.ts: the text helpers                                  *)
(* ===================================================================== *)

(** A string is the sequence of its code units, here the code units below
    256; the helpers look at single code units only. *)
Module TextHelpers.

Definition code (c : ascii) : nat := nat_of_ascii c.

Definition in_range (lo hi : nat) (c : ascii) : bool :=
  (lo <=? code c)%nat && (code c <=? hi)%nat.

(** [\s]: tab, line feed, vertical tab, form feed, carriage return, space
    and no-break space. *)
Definition is_space (c : ascii) : bool :=
  in_range 9 13 c || (code c =? 32)%nat || (code c =? 160)%nat.

Definition is_lower (c : ascii) : bool := in_range 97 122 c.
Definition is_digit (c : ascii) : bool := in_range 48 57 c.
Definition is_hyphen (c : ascii) : bool := (code c =? 45)%nat.
Definition is_char (x : ascii) (c : ascii) : bool := (code c =? code x)%nat.

(** [String.prototype.toLowerCase] on one code unit: the letters A-Z and
    the capital letters of the Latin-1 supplement move up by 32. *)
Definition toLowerCase_char (c : ascii) : ascii :=
  if in_range 65 90 c || in_range 192 214 c || in_range 216 222 c
  then ascii_of_nat (code c + 32)
  else c.

(** [input.replace(/<[^>]*>/g, '')], read from left to right: after a [<]
    the code units are held back until a [>] discards them; at the end of
    the input what is held back was no tag and is put out. *)
Fixpoint strip_tags (held : option (list ascii)) (l : list ascii) : list ascii :=
  match l with
  | [] => default [] held
  | c :: l' =>
      match held with
      | Some h => if is_char ">"%char c then strip_tags None l'
                  else strip_tags (Some (h ++ [c])) l'
      | None => if is_char "<"%char c then strip_tags (Some [c]) l'
                else c :: strip_tags None l'
      end
  end.

(** [sanitizeInput(input)]. *)
Definition sanitizeInput (input : string) : string :=
  String.string_of_list_ascii (strip_tags None (String.list_ascii_of_string input)).

(** [replace(/P+/g, r)]: every maximal run of code units in [P] becomes
    one [r], put out at the last code unit of the run. *)
Fixpoint replace_runs (P : ascii -> bool) (r : ascii) (l : list ascii)
  : list ascii :=
  match l with
  | [] => []
  | c :: l' =>
      if P c
      then match l' with
           | c' :: _ => if P c' then replace_runs P r l'
                        else r :: replace_runs P r l'
           | [] => [r]
           end
      else c :: replace_runs P r l'
  end.

Fixpoint drop_leading (P : ascii -> bool) (l : list ascii) : list ascii :=
  match l with
  | [] => []
  | c :: l' => if P c then drop_leading P l' else l
  end.

Fixpoint drop_trailing (P : ascii -> bool) (l : list ascii) : list ascii :=
  match l with
  | [] => []
  | c :: l' =>
      match drop_trailing P l' with
      | [] => if P c then [] else [c]
      | rest => c :: rest
      end
  end.

(** [[a-z0-9 -]]. *)
Definition slug_source_char (c : ascii) : bool :=
  is_lower c || is_digit c || (code c =? 32)%nat || is_hyphen c.

(** [generateSlug(str)], step by step: [toLowerCase()],
    [replace(/[^a-z0-9 -]/g, '')], [replace(/\s+/g, '-')],
    [replace(/-+/g, '-')], [replace(/^-+|-+$/g, '')]. *)
Definition generateSlug_units (l : list ascii) : list ascii :=
  let l1 := toLowerCase_char <$> l in
  let l2 := List.filter slug_source_char l1 in
  let l3 := replace_runs is_space "-"%char l2 in
  let l4 := replace_runs is_hyphen "-"%char l3 in
  drop_trailing is_hyphen (drop_leading is_hyphen l4).

Definition generateSlug (str : string) : string :=
  String.string_of_list_ascii (generateSlug_units (String.list_ascii_of_string str)).

(** [[^\s@]]. *)
Definition email_char (c : ascii) : bool :=
  negb (is_space c) && negb (is_char "@"%char c).

Fixpoint take_leading (P : ascii -> bool) (l : list ascii) : list ascii :=
  match l with
  | [] => []
  | c :: l' => if P c then c :: take_leading P l' else []
  end.

(** [/^[^\s@]+@[^\s@]+\.[^\s@]+$/.test(email)]: a non-empty run of
    [[^\s@]], an [@], and a rest made of [[^\s@]] that has a dot with
    something before it and something after it. *)
Definition isValidEmail_units (l : list ascii) : bool :=
  match take_leading email_char l, drop_leading email_char l with
  | _ :: _, at_sign :: domain =>
      is_char "@"%char at_sign
      && forallb email_char domain
      && match domain with
         | _ :: rest => existsb (is_char "."%char) (removelast rest)
         | [] => false
         end
  | _, _ => false
  end.

Definition isValidEmail (email : string) : bool :=
  isValidEmail_units (String.list_ascii_of_string email).

End TextHelpers.

(* ===================================================================== *)
(** ** Vocabulary of the further properties                                *)
(* ===================================================================== *)

(** The requests and the log lines that [deleteImage(fileId)] adds, given
    the requests that the object store has received so far. *)
Definition destroy_requests (fileId : JsValue) : list CloudCall :=
  if truthy fileId then [Destroy fileId] else [].

Definition destroy_log (cloudinary : Cloudinary) (calls : list CloudCall)
           (fileId : JsValue) : list string :=
  if truthy fileId
  then match uploader_destroy cloudinary calls fileId with
       | Some error => ["Failed to delete image from Cloudinary: "
                        +:+ error_message error]
       | None => []
       end
  else [].

Definition after_destroy (cloudinary : Cloudinary) (fileId : JsValue)
           (w : World) : World :=
  {| siteSettings := siteSettings w; admins := admins w;
     cloudCalls := cloudCalls w ++ destroy_requests fileId;
     stderr := stderr w ++ destroy_log cloudinary (cloudCalls w) fileId |}.

(** The files that [uploadImage] hands to the object store. *)
Definition acceptable (config : Config) (file : UploadedFile) : bool :=
  negb (String.eqb (file_name file) "")
  && bool_decide (mimetype file ∈ ImageService.allowedTypes)
  && negb (size file =? 0)
  && (size file <=? maxFileSize config)
  && bool_decide (is_Some (data file)).

(** The inputs of [create] that the schema default or their own value
    makes active. *)
Definition active_by_default (input : gmap string JsValue) : bool :=
  match input !! "isActive" with
  | None | Some JUndefined | Some (JBool true) => true
  | _ => false
  end.

(** The menu items of a record. *)
Definition menu_of (r : gmap string JsValue) : list JsValue :=
  elements_of (get r "menuChildWithImage").

(** The [fileId] of the image of a menu item, and of an image field. *)
Definition item_fileId (item : JsValue) : JsValue :=
  prop (prop item "image") "fileId".

Definition field_fileId (r : gmap string JsValue) (field : string) : JsValue :=
  prop (get r field) "fileId".

(** The requests that read the active record first and stop when there is
    none; a request that comes with a file is one of them when the file
    passes [validateImageFile]. *)
Definition requires_active (op : SettingsOp) : bool :=
  match op with
  | UpdateSiteSettings _ _ | RestoreSiteSettings _ _ => false
  | UpdateBackgroundImage _ f | UpdateAboutSectionImage _ f
  | UpdateMenuMainImage _ f | UpdateMenuChildImage _ _ f =>
      match f with
      | OneFile _ => true
      | _ => false
      end
  | _ => true
  end.

(** A list of code units has a tag when some [<] is followed, anywhere
    later, by a [>]: the lists on which [/<[^>]*>/] has a match. *)
Fixpoint has_tag (l : list ascii) : bool :=
  match l with
  | [] => false
  | c :: l' =>
      (TextHelpers.is_char "<"%char c
       && existsb (TextHelpers.is_char ">"%char) l')
      || has_tag l'
  end.

(** [[a-z0-9-]]. *)
Definition slug_char (c : ascii) : bool :=
  TextHelpers.is_lower c || TextHelpers.is_digit c || TextHelpers.is_hyphen c.

Fixpoint no_double_hyphen (l : list ascii) : bool :=
  match l with
  | c :: l' =>
      match l' with
      | c' :: _ => negb (TextHelpers.is_hyphen c && TextHelpers.is_hyphen c')
      | [] => true
      end && no_double_hyphen l'
  | [] => true
  end.

(** The slugs: code units in [[a-z0-9-]], no hyphen at either end and no
    two hyphens in a row. *)
Definition is_slug (l : list ascii) : bool :=
  forallb slug_char l
  && no_double_hyphen l
  && match l with
     | c :: _ => negb (TextHelpers.is_hyphen c)
     | [] => true
     end
  && match last l with
     | Some c => negb (TextHelpers.is_hyphen c)
     | None => true
     end.

(** An [Admin.create] for the samples: the admin is stored under the [_id]
    ["admin-new"] with the password digest of [sample_compare]. *)
Definition sample_Admin_create (input : gmap string JsValue) : Svc Admin :=
  fun w =>
    let text k := match input !! k with Some (JStr s) => s | _ => "" end in
    let a := {| admin_id := "admin-new"; name := text "name";
                email := text "email";
                password := "hash:" +:+ text "password";
                active := Some true; lastLoginAt := None |} in
    (inr a, set_admins (admins w ++ [a]) w).

(* ===================================================================== *)
(** ** Running a service call                                              *)
(* ===================================================================== *)

Section ServiceLaws.

Lemma run_bind {A B} (m : Svc A) (f : A -> Svc B) (w : World) :
  (m ≫= f) w = match m w with
               | (inl e, w') => (inl e, w')
               | (inr x, w') => f x w'
               end.
Proof. reflexivity. Qed.

Lemma run_bind_gets {A B} (g : World -> A) (f : A -> Svc B) (w : World) :
  (gets g ≫= f) w = f (g w) w.
Proof. reflexivity. Qed.

Lemma run_bind_modify {B} (g : World -> World) (f : unit -> Svc B) (w : World) :
  (modify g ≫= f) w = f tt (g w).
Proof. reflexivity. Qed.

Lemma run_bind_ret {A B} (x : A) (f : A -> Svc B) (w : World) :
  (mret x ≫= f) w = f x w.
Proof. reflexivity. Qed.

Lemma run_bind_throw {A B} (e : AppError) (f : A -> Svc B) (w : World) :
  (throw e ≫= f) w = (inl e, w).
Proof. reflexivity. Qed.

Lemma stable_ret {A} (x : A) : stable (mret x).
Proof. intros w. reflexivity. Qed.

Lemma stable_throw {A} (e : AppError) : stable (@throw A e).
Proof. intros w. reflexivity. Qed.

Lemma stable_gets {A} (g : World -> A) : stable (gets g).
Proof. intros w. reflexivity. Qed.

Lemma stable_bind {A B} (m : Svc A) (f : A -> Svc B) :
  stable m -> (forall x, stable (f x)) -> stable (m ≫= f).
Proof.
  intros Hm Hf w. rewrite run_bind. specialize (Hm w).
  destruct (m w) as [[e|x] w']; cbn in *; [exact Hm|].
  rewrite Hf. exact Hm.
Qed.

Lemma stable_console_error (line : string) : stable (console_error line).
Proof. intros w. reflexivity. Qed.

Lemma stable_record_call (c : CloudCall) : stable (modify (record_call c)).
Proof. intros w. reflexivity. Qed.

Lemma stable_populate (d : SiteSettings.Document) :
  stable (SiteSettings.populate_updatedBy d).
Proof. intros w. reflexivity. Qed.

Lemma stable_validateImageFile (file : FileArg) :
  stable (ImageService.validateImageFile file).
Proof. destruct file; [apply stable_throw|apply stable_ret|apply stable_throw]. Qed.

Context (cloudinary : Cloudinary) (config : Config).

Lemma stable_deleteImage (fileId : JsValue) :
  stable (ImageService.deleteImage cloudinary fileId).
Proof.
  unfold ImageService.deleteImage.
  destruct (negb (truthy fileId)); [apply stable_ret|].
  apply stable_bind; [apply stable_gets|]. intros calls.
  apply stable_bind; [apply stable_record_call|]. intros _.
  destruct (uploader_destroy _ _ _); [apply stable_console_error|apply stable_ret].
Qed.

Lemma stable_delete_previous (image : JsValue) :
  stable (AdminService.delete_previous cloudinary image).
Proof.
  unfold AdminService.delete_previous.
  destruct (truthy _); [apply stable_deleteImage|apply stable_ret].
Qed.

Lemma stable_uploadImage_try (file : UploadedFile) (folder : string) :
  stable (ImageService.uploadImage_try cloudinary config file folder).
Proof.
  unfold ImageService.uploadImage_try.
  repeat (match goal with
          | |- stable (if ?b then _ else _) => destruct b
          | |- stable (match ?o with Some _ => _ | None => _ end) => destruct o
          | |- stable (throw _) => apply stable_throw
          end).
  apply stable_bind; [apply stable_gets|]. intros calls.
  apply stable_bind; [apply stable_record_call|]. intros _.
  apply stable_ret.
Qed.

Lemma stable_uploadImage (file : UploadedFile) (folder : string) :
  stable (ImageService.uploadImage cloudinary config file folder).
Proof.
  intros w. unfold ImageService.uploadImage.
  pose proof (stable_uploadImage_try file folder w) as H.
  destruct (ImageService.uploadImage_try _ _ _ _ w) as [[e|[e|r]] w']; exact H.
Qed.

End ServiceLaws.

(* ===================================================================== *)
(** ** The key-by-key loop of [updateSiteSettings]                         *)
(* ===================================================================== *)

Section Loop.

(** The loop body of either revision: it touches the key it is given and
    no other, and what it leaves under that key depends on nothing but
    the value found there. *)
Context (step : gmap string JsValue -> string -> JsValue -> gmap string JsValue).
Hypothesis step_other :
  forall s k v k', k' <> k -> step s k v !! k' = s !! k'.
Hypothesis step_local :
  forall s s' k v, s !! k = s' !! k -> step s k v !! k = step s' k v !! k.

Lemma foldl_step_lookup (l : list (string * JsValue)) :
  NoDup l.*1 ->
  forall s k,
    foldl (fun acc '(key, value) => step acc key value) s l !! k
    = match (list_to_map l : gmap string JsValue) !! k with
      | Some v => step s k v !! k
      | None => s !! k
      end.
Proof.
  induction l as [|[k1 v1] l IH]; intros Hnd s k.
  - cbn. rewrite lookup_empty. reflexivity.
  - apply NoDup_cons in Hnd as [Hk1 Hnd]. cbn [foldl].
    rewrite (IH Hnd). rewrite list_to_map_cons.
    destruct (decide (k = k1)) as [->|Hne].
    + rewrite lookup_insert_eq.
      rewrite (not_elem_of_list_to_map_1 _ _ Hk1). reflexivity.
    + rewrite lookup_insert_ne by congruence.
      destruct (list_to_map l !! k) as [v|].
      * apply step_local. apply step_other. exact Hne.
      * apply step_other. exact Hne.
Qed.

(** The order in which [Object.keys] lists the payload is immaterial:
    under each key the loop leaves what its body leaves there. *)
Lemma loop_lookup (s d : gmap string JsValue) (k : string) :
  foldl (fun acc '(key, value) => step acc key value) s (map_to_list d) !! k
  = match d !! k with
    | Some v => step s k v !! k
    | None => s !! k
    end.
Proof.
  rewrite foldl_step_lookup by apply NoDup_fst_map_to_list.
  rewrite list_to_map_to_list. reflexivity.
Qed.

End Loop.

Section AssignKey.

Lemma assign_key_other s k v k' :
  k' <> k -> AdminService.assign_key s k v !! k' = s !! k'.
Proof.
  intros Hne. unfold AdminService.assign_key.
  destruct v; try reflexivity;
    repeat (match goal with
            | |- context [if ?b then _ else _] => destruct b
            end);
    try reflexivity; apply lookup_insert_ne; congruence.
Qed.

Lemma assign_key_local s s' k v :
  s !! k = s' !! k ->
  AdminService.assign_key s k v !! k = AdminService.assign_key s' k v !! k.
Proof.
  intros Heq. unfold AdminService.assign_key, get. rewrite <- Heq.
  destruct v; try exact Heq;
    repeat (match goal with
            | |- context [if ?b then _ else _] => destruct b
            end);
    rewrite ?lookup_insert_eq; try reflexivity; exact Heq.
Qed.

Lemma assign_all_lookup s d k :
  AdminService.assign_all s d !! k
  = match d !! k with
    | Some v => AdminService.assign_key s k v !! k
    | None => s !! k
    end.
Proof.
  apply (loop_lookup AdminService.assign_key assign_key_other assign_key_local).
Qed.

Lemma assign_key_other' s k v k' :
  k' <> k -> AdminServiceNoMenu.assign_key s k v !! k' = s !! k'.
Proof.
  intros Hne. unfold AdminServiceNoMenu.assign_key.
  destruct v; try reflexivity;
    repeat (match goal with
            | |- context [if ?b then _ else _] => destruct b
            end);
    try reflexivity; apply lookup_insert_ne; congruence.
Qed.

Lemma assign_key_local' s s' k v :
  s !! k = s' !! k ->
  AdminServiceNoMenu.assign_key s k v !! k
  = AdminServiceNoMenu.assign_key s' k v !! k.
Proof.
  intros Heq. unfold AdminServiceNoMenu.assign_key, get. rewrite <- Heq.
  destruct v; try exact Heq;
    repeat (match goal with
            | |- context [if ?b then _ else _] => destruct b
            end);
    rewrite ?lookup_insert_eq; try reflexivity; exact Heq.
Qed.

Lemma assign_all_lookup' s d k :
  AdminServiceNoMenu.assign_all s d !! k
  = match d !! k with
    | Some v => AdminServiceNoMenu.assign_key s k v !! k
    | None => s !! k
    end.
Proof.
  apply (loop_lookup AdminServiceNoMenu.assign_key
           assign_key_other' assign_key_local').
Qed.

End AssignKey.

(* ===================================================================== *)
(** ** Properties of [updateSiteSettings]                                  *)
(* ===================================================================== *)

Section UpdateSiteSettings.
Import SiteSettings.

Lemma save_existing_run (d : Document) (w : World) :
  isNew d = false ->
  save d w
  = (inr {| _id := _id d; isNew := false; fields := fields d |},
     set_siteSettings (<[_id d := fields d]> (siteSettings w)) w).
Proof.
  intros Hnew. unfold save, pre_save. rewrite Hnew, andb_false_r.
  reflexivity.
Qed.

(** On a collection with an active record, the call is the loop, the
    assignment of [updatedBy], the save and the populate. *)
Lemma updateSiteSettings_run adminId data w i r :
  list_find (fun r => Is_true (is_active r)) (siteSettings w) = Some (i, r) ->
  AdminService.updateSiteSettings adminId data w
  = populate_updatedBy
      {| _id := i; isNew := false;
         fields := <["updatedBy" := JStr adminId]> (AdminService.assign_all r data) |}
      (set_siteSettings
         (<[i := <["updatedBy" := JStr adminId]> (AdminService.assign_all r data)]>
            (siteSettings w)) w).
Proof.
  intros Hfind. unfold AdminService.updateSiteSettings, findOne_isActive.
  rewrite run_bind_gets, Hfind. cbn [fmap option_fmap option_map].
  rewrite run_bind, save_existing_run by reflexivity. reflexivity.
Qed.

Lemma updateSiteSettings_run' adminId data w i r :
  list_find (fun r => Is_true (is_active r)) (siteSettings w) = Some (i, r) ->
  AdminServiceNoMenu.updateSiteSettings adminId data w
  = populate_updatedBy
      {| _id := i; isNew := false;
         fields := <["updatedBy" := JStr adminId]>
                     (AdminServiceNoMenu.assign_all r data) |}
      (set_siteSettings
         (<[i := <["updatedBy" := JStr adminId]>
                   (AdminServiceNoMenu.assign_all r data)]>
            (siteSettings w)) w).
Proof.
  intros Hfind. unfold AdminServiceNoMenu.updateSiteSettings, findOne_isActive.
  rewrite run_bind_gets, Hfind. cbn [fmap option_fmap option_map].
  rewrite run_bind, save_existing_run by reflexivity. reflexivity.
Qed.

(** What a populated document shows under a key other than [updatedBy]. *)
Lemma populate_run_field d w k :
  k <> "updatedBy" ->
  returned_field (populate_updatedBy d w) k = fields d !! k.
Proof.
  intros Hk. unfold returned_field, populate_updatedBy, gets. cbn.
  destruct (fields d !! "updatedBy") as [[]|]; try reflexivity.
  cbn. apply lookup_insert_ne. congruence.
Qed.

Lemma populate_run_state d w : (populate_updatedBy d w).2 = w.
Proof. reflexivity. Qed.

Lemma populate_run_succeeded d w : succeeded (populate_updatedBy d w) = true.
Proof. reflexivity. Qed.

(** A populate returns the document it is given, with nothing but the
    value under [updatedBy] changed. *)
Lemma populate_run d w :
  exists d',
    populate_updatedBy d w = (inr d', w)
    /\ _id d' = _id d
    /\ forall k, k <> "updatedBy" -> fields d' !! k = fields d !! k.
Proof.
  unfold populate_updatedBy, gets.
  destruct (fields d !! "updatedBy") as [v|];
    [destruct v|]; eexists; (split; [reflexivity|]);
    (split; [reflexivity|]); intros k Hk; try reflexivity.
  cbn. apply lookup_insert_ne. congruence.
Qed.

Lemma find_active_lt (l : list (gmap string JsValue)) i r :
  list_find (fun r => Is_true (is_active r)) l = Some (i, r) ->
  l !! i = Some r /\ is_active r = true /\ (i < length l)%nat.
Proof.
  intros H. apply list_find_Some in H as (Hi & Hact & _).
  split; [exact Hi|]. split; [apply Is_true_true; exact Hact|].
  apply lookup_lt_Some in Hi. exact Hi.
Qed.

(** After the call, record [i] holds, under a key other than [updatedBy],
    what the loop body leaves there. *)
Lemma updateSiteSettings_stored adminId data w i r k :
  list_find (fun r => Is_true (is_active r)) (siteSettings w) = Some (i, r) ->
  k <> "updatedBy" ->
  succeeded (AdminService.updateSiteSettings adminId data w) = true
  /\ stored_field (AdminService.updateSiteSettings adminId data w) i k
     = AdminService.assign_all r data !! k
  /\ returned_field (AdminService.updateSiteSettings adminId data w) k
     = AdminService.assign_all r data !! k.
Proof.
  intros Hfind Hk. rewrite (updateSiteSettings_run _ _ _ _ _ Hfind).
  split; [apply populate_run_succeeded|]. split.
  - unfold stored_field. rewrite populate_run_state. cbn.
    apply find_active_lt in Hfind as (_ & _ & Hlt).
    rewrite list_lookup_insert_eq by exact Hlt. cbn.
    apply lookup_insert_ne. congruence.
  - rewrite populate_run_field by exact Hk. cbn.
    apply lookup_insert_ne. congruence.
Qed.

Lemma updateSiteSettings_stored' adminId data w i r k :
  list_find (fun r => Is_true (is_active r)) (siteSettings w) = Some (i, r) ->
  k <> "updatedBy" ->
  succeeded (AdminServiceNoMenu.updateSiteSettings adminId data w) = true
  /\ stored_field (AdminServiceNoMenu.updateSiteSettings adminId data w) i k
     = AdminServiceNoMenu.assign_all r data !! k
  /\ returned_field (AdminServiceNoMenu.updateSiteSettings adminId data w) k
     = AdminServiceNoMenu.assign_all r data !! k.
Proof.
  intros Hfind Hk. rewrite (updateSiteSettings_run' _ _ _ _ _ Hfind).
  split; [apply populate_run_succeeded|]. split.
  - unfold stored_field. rewrite populate_run_state. cbn.
    apply find_active_lt in Hfind as (_ & _ & Hlt).
    rewrite list_lookup_insert_eq by exact Hlt. cbn.
    apply lookup_insert_ne. congruence.
  - rewrite populate_run_field by exact Hk. cbn.
    apply lookup_insert_ne. congruence.
Qed.






(** The loop does the same on a payload and on that payload without a
    key whose assignment leaves the record as it is. *)
Lemma assign_all_delete r data key v :
  data !! key = Some v ->
  AdminService.assign_key r key v !! key = r !! key ->
  AdminService.assign_all r data = AdminService.assign_all r (delete key data).
Proof.
  intros Hv Hdrop. apply map_eq. intros k.
  rewrite !assign_all_lookup.
  destruct (decide (k = key)) as [->|Hne].
  - rewrite Hv, lookup_delete_eq. exact Hdrop.
  - rewrite lookup_delete_ne by congruence. reflexivity.
Qed.

Lemma assign_all_delete' r data key v :
  data !! key = Some v ->
  AdminServiceNoMenu.assign_key r key v !! key = r !! key ->
  AdminServiceNoMenu.assign_all r data
  = AdminServiceNoMenu.assign_all r (delete key data).
Proof.
  intros Hv Hdrop. apply map_eq. intros k.
  rewrite !assign_all_lookup'.
  destruct (decide (k = key)) as [->|Hne].
  - rewrite Hv, lookup_delete_eq. exact Hdrop.
  - rewrite lookup_delete_ne by congruence. reflexivity.
Qed.



End UpdateSiteSettings.

(* ===================================================================== *)
(** ** Properties of [restoreSiteSettings]                                 *)
(* ===================================================================== *)

Section RestoreSiteSettings.
Import SiteSettings.

Lemma literal_cons k o l :
  literal ((k, o) :: l) = match o with
                          | Some v => <[k := v]> (literal l)
                          | None => literal l
                          end.
Proof. destruct o; reflexivity. Qed.

Lemma literal_lookup_notin (l : list (string * option JsValue)) k :
  k ∉ l.*1 -> literal l !! k = None.
Proof.
  induction l as [|[k1 o1] l IH]; intros Hk.
  - apply lookup_empty.
  - rewrite fmap_cons in Hk. apply not_elem_of_cons in Hk as [Hne Hk].
    rewrite literal_cons. destruct o1 as [v|]; [|exact (IH Hk)].
    rewrite lookup_insert_ne by (cbn in Hne; congruence). exact (IH Hk).
Qed.

(** A literal whose keys differ holds under each key what is written
    there. *)
Lemma literal_lookup_in (l : list (string * option JsValue)) k o :
  NoDup l.*1 -> (k, o) ∈ l -> literal l !! k = o.
Proof.
  induction l as [|[k1 o1] l IH]; intros Hnd Hin.
  - inversion Hin.
  - rewrite fmap_cons in Hnd. apply NoDup_cons in Hnd as [Hk1 Hnd].
    rewrite literal_cons.
    apply elem_of_cons in Hin as [Heq|Hin].
    + injection Heq as -> ->.
      destruct o1 as [v|]; [apply lookup_insert_eq|].
      apply literal_lookup_notin. exact Hk1.
    + assert (Hne : k <> k1).
      { intros ->. apply Hk1. apply list_elem_of_fmap.
        exists (k1, o). split; [reflexivity|exact Hin]. }
      destruct o1 as [v|]; [rewrite lookup_insert_ne by congruence|];
        exact (IH Hnd Hin).
Qed.

Lemma restored_input_keys_NoDup adminId previousSettings :
  NoDup
    [ ("backgroundImage", fields previousSettings !! "backgroundImage");
      ("heroSectionText", fields previousSettings !! "heroSectionText");
      ("aboutSectionText", fields previousSettings !! "aboutSectionText");
      ("contactInfo", fields previousSettings !! "contactInfo");
      ("socialMedia", fields previousSettings !! "socialMedia");
      ("updatedBy", Some (JStr adminId));
      ("isActive", Some (JBool true)) ].*1.
Proof. cbn. apply (bool_decide_unpack _). reflexivity. Qed.

(** What the literal of a restore holds under each key. *)
Lemma restored_input_lookup adminId previousSettings k :
  AdminService.restored_input adminId previousSettings !! k
  = if bool_decide (k ∈ restored_keys) then fields previousSettings !! k
    else if bool_decide (k = "updatedBy") then Some (JStr adminId)
    else if bool_decide (k = "isActive") then Some (JBool true)
    else None.
Proof.
  unfold AdminService.restored_input.
  pose proof (restored_input_keys_NoDup adminId previousSettings) as Hnd.
  case_bool_decide as Hin.
  { apply literal_lookup_in; [exact Hnd|].
    unfold restored_keys in Hin. rewrite !elem_of_cons, elem_of_nil in Hin.
    rewrite !elem_of_cons.
    destruct Hin as [->|[->|[->|[->|[->|[]]]]]]; auto 10. }
  case_bool_decide as Hu.
  { subst k. apply literal_lookup_in; [exact Hnd|]. rewrite !elem_of_cons. auto 10. }
  case_bool_decide as Ha.
  { subst k. apply literal_lookup_in; [exact Hnd|]. rewrite !elem_of_cons. auto 10. }
  apply literal_lookup_notin. cbn.
  unfold restored_keys in Hin. rewrite !elem_of_cons, elem_of_nil in Hin.
  rewrite !elem_of_cons, elem_of_nil. tauto.
Qed.

Lemma imap_deactivate_all (l : list (gmap string JsValue)) :
  imap (fun i r => if decide (i = length l) then r
                   else <["isActive" := JBool false]> r) l
  = insert "isActive" (JBool false) <$> l.
Proof.
  apply list_eq. intros i. rewrite list_lookup_imap, list_lookup_fmap.
  destruct (l !! i) as [r|] eqn:Hi; [|reflexivity]. cbn.
  apply lookup_lt_Some in Hi. rewrite decide_False by lia. reflexivity.
Qed.

Lemma deactivate_twice (l : list (gmap string JsValue)) :
  insert "isActive" (JBool false) <$> (insert "isActive" (JBool false) <$> l)
  = insert "isActive" (JBool false) <$> l.
Proof.
  rewrite <- list_fmap_compose. apply list_fmap_ext. intros i r _. cbn.
  apply insert_insert_eq.
Qed.

(** A restore of an existing version deactivates every record, appends
    the copy and returns it populated. *)
Lemma restoreSiteSettings_run adminId settingsId w target :
  siteSettings w !! settingsId = Some target ->
  AdminService.restoreSiteSettings adminId settingsId w
  = populate_updatedBy
      {| _id := length (siteSettings w); isNew := false;
         fields := AdminService.restored_input adminId
                     {| _id := settingsId; isNew := false; fields := target |} |}
      (set_siteSettings
         ((insert "isActive" (JBool false) <$> siteSettings w)
            ++ [AdminService.restored_input adminId
                  {| _id := settingsId; isNew := false; fields := target |}]) w).
Proof.
  intros Htarget.
  set (input := AdminService.restored_input adminId
                  {| _id := settingsId; isNew := false; fields := target |}).
  assert (Hact : input !! "isActive" = Some (JBool true)).
  { unfold input. rewrite restored_input_lookup. reflexivity. }
  unfold AdminService.restoreSiteSettings, findById.
  rewrite run_bind_gets, Htarget. cbn [fmap option_fmap option_map].
  fold input. unfold updateMany_deactivate. rewrite run_bind_modify.
  assert (Hwd : with_defaults input = input).
  { unfold with_defaults, get. rewrite Hact. reflexivity. }
  rewrite run_bind. unfold create at 1. rewrite run_bind_gets, Hwd.
  assert (Hget : get input "isActive" = JBool true).
  { unfold get. rewrite Hact. reflexivity. }
  unfold save, pre_save. cbn [fields isNew _id]. rewrite Hget.
  cbn [truthy andb]. unfold updateMany_ne_id_deactivate.
  rewrite run_bind_modify, run_bind_modify. cbn [siteSettings set_siteSettings].
  unfold mret, Svc_ret.
  rewrite imap_deactivate_all, deactivate_twice, length_fmap.
  reflexivity.
Qed.

(** C6. [restoreSiteSettings(adminId, targetId)] throws "not found" (404),
    changing nothing, when no record has the target id.  When the target
    exists the call succeeds: every earlier record is kept with
    [isActive: false], one new record is appended and returned, the new
    record has [isActive: true] and [updatedBy: adminId], it holds under
    the background image, hero text, about text, contact info and social
    links what the target holds there, and it holds nothing else: its
    menu items are absent, whatever the menu items of the target. *)
Theorem restoreSiteSettings_correct adminId settingsId w :
  match siteSettings w !! settingsId with
  | None =>
      AdminService.restoreSiteSettings adminId settingsId w
      = (inl {| message := "Settings version not found"; statusCode := 404 |}, w)
  | Some target =>
      exists restored new,
        (AdminService.restoreSiteSettings adminId settingsId w).1 = inr restored
        /\ siteSettings (AdminService.restoreSiteSettings adminId settingsId w).2
           = (insert "isActive" (JBool false) <$> siteSettings w) ++ [new]
        /\ _id restored = length (siteSettings w)
        /\ is_active new = true
        /\ new !! "updatedBy" = Some (JStr adminId)
        /\ (forall k, k ∈ restored_keys ->
              new !! k = target !! k /\ fields restored !! k = target !! k)
        /\ (forall k, k ∉ restored_keys -> k <> "updatedBy" -> k <> "isActive" ->
              new !! k = None /\ fields restored !! k = None)
        /\ elements_of (get new "menuChildWithImage") = []
        /\ elements_of (get (fields restored) "menuChildWithImage") = []
  end.
Proof.
  destruct (siteSettings w !! settingsId) as [target|] eqn:Htarget.
  - rewrite (restoreSiteSettings_run _ _ _ _ Htarget).
    set (input := AdminService.restored_input adminId
                    {| _id := settingsId; isNew := false; fields := target |}).
    destruct (populate_run
                {| _id := length (siteSettings w); isNew := false;
                   fields := input |}
                (set_siteSettings
                   ((insert "isActive" (JBool false) <$> siteSettings w)
                      ++ [input]) w))
      as (d & Hrun & Hid & Hfields).
    rewrite Hrun. cbn [fst snd siteSettings set_siteSettings].
    cbn [_id fields] in Hid, Hfields.
    assert (Hd : @inr AppError Document d = inr d) by reflexivity.
    assert (Hmenu : input !! "menuChildWithImage" = None).
    { unfold input. rewrite restored_input_lookup. reflexivity. }
    exists d, input. split; [exact Hd|]. split; [reflexivity|].
    split; [exact Hid|]. split.
    { unfold is_active, input. rewrite restored_input_lookup. reflexivity. }
    split.
    { unfold input. rewrite restored_input_lookup. reflexivity. }
    split.
    { intros k Hk.
      assert (Hin : input !! k = target !! k).
      { unfold input. rewrite restored_input_lookup.
        rewrite bool_decide_eq_true_2 by exact Hk. reflexivity. }
      split; [exact Hin|]. rewrite Hfields; [exact Hin|].
      intros ->. revert Hk. unfold restored_keys.
      rewrite !elem_of_cons, elem_of_nil. intuition discriminate. }
    split.
    { intros k Hk Hu Ha.
      assert (Hin : input !! k = None).
      { unfold input. rewrite restored_input_lookup.
        rewrite !bool_decide_eq_false_2 by assumption. reflexivity. }
      split; [exact Hin|]. rewrite Hfields by exact Hu. exact Hin. }
    split.
    { unfold get. rewrite Hmenu. reflexivity. }
    { unfold get. rewrite Hfields by discriminate. rewrite Hmenu. reflexivity. }
  - unfold AdminService.restoreSiteSettings, findById.
    rewrite run_bind_gets, Htarget. reflexivity.
Qed.

Lemma restoreSiteSettings_correct_witness :
  exists restored new,
    (AdminService.restoreSiteSettings "admin-2" 0 sample_world).1 = inr restored
    /\ siteSettings (AdminService.restoreSiteSettings "admin-2" 0 sample_world).2
       = [<["isActive" := JBool false]> sample_settings; new]
    /\ length (elements_of (get sample_settings "menuChildWithImage")) = 2%nat
    /\ elements_of (get new "menuChildWithImage") = []
    /\ new !! "heroSectionText" = Some sample_hero.
Proof.
  destruct (restoreSiteSettings_correct "admin-2" 0 sample_world)
    as (restored & new & Hres & Hst & _ & _ & _ & Hcopy & _ & Hmenu & _).
  exists restored, new. split; [exact Hres|]. split; [exact Hst|].
  split; [reflexivity|]. split; [exact Hmenu|].
  apply (Hcopy "heroSectionText").
  unfold restored_keys. rewrite !elem_of_cons. auto.
Defined.

End RestoreSiteSettings.

(* ===================================================================== *)
(** ** Properties of the image and menu operations                         *)
(* ===================================================================== *)

Section ImagesAndMenu.
Import SiteSettings.

Context (cloudinary : Cloudinary) (config : Config).

Lemma save_as_run adminId (d : Document) fields' w :
  isNew d = false ->
  AdminService.save_as adminId d fields' w
  = populate_updatedBy
      {| _id := _id d; isNew := false;
         fields := <["updatedBy" := JStr adminId]> fields' |}
      (set_siteSettings
         (<[_id d := <["updatedBy" := JStr adminId]> fields']> (siteSettings w)) w).
Proof.
  intros Hnew. unfold AdminService.save_as.
  rewrite run_bind, save_existing_run by exact Hnew. reflexivity.
Qed.

(** A deletion that the object store rejects: the request is made, the
    message is logged, the call returns. *)
Lemma deleteImage_run_rejected fileId error w :
  truthy fileId = true ->
  uploader_destroy cloudinary (cloudCalls w) fileId = Some error ->
  ImageService.deleteImage cloudinary fileId w
  = (inr tt,
     {| siteSettings := siteSettings w; admins := admins w;
        cloudCalls := cloudCalls w ++ [Destroy fileId];
        stderr := stderr w ++ ["Failed to delete image from Cloudinary: "
                               +:+ error_message error] |}).
Proof.
  intros Htruthy Hdestroy. unfold ImageService.deleteImage.
  rewrite Htruthy. cbn [negb].
  rewrite run_bind_gets, run_bind_modify, Hdestroy. reflexivity.
Qed.

(** An upload of an acceptable file that the object store accepts. *)
Lemma uploadImage_run_accepted file folder bytes uploadResult w :
  file_name file <> "" ->
  mimetype file ∈ ImageService.allowedTypes ->
  size file <> 0 ->
  size file <= maxFileSize config ->
  data file = Some bytes ->
  uploader_upload cloudinary (cloudCalls w) file folder = inr uploadResult ->
  ImageService.uploadImage cloudinary config file folder w
  = (inr uploadResult, record_call (Upload file folder) w).
Proof.
  intros Hname Hmime Hsize Hmax Hdata Hupload.
  unfold ImageService.uploadImage, ImageService.uploadImage_try.
  assert (Hm : mimetype file <> "").
  { intros Heq. rewrite Heq in Hmime. revert Hmime.
    unfold ImageService.allowedTypes. rewrite !elem_of_cons, elem_of_nil.
    intuition discriminate. }
  apply String.eqb_neq in Hname. apply String.eqb_neq in Hm.
  apply Z.eqb_neq in Hsize. rewrite Hname, Hm, Hsize. cbn [orb].
  rewrite (bool_decide_eq_true_2 _ Hmime). cbn [negb].
  assert (Hgt : (size file >? maxFileSize config) = false).
  { rewrite Z.gtb_ltb. apply Z.ltb_ge. exact Hmax. }
  rewrite Hgt, Hdata.
  rewrite run_bind_gets, run_bind_modify. cbn. rewrite Hupload. reflexivity.
Qed.

(** C7. During a background-image replace on an active record that holds
    a previous asset, when the object store rejects the deletion of that
    asset while the uploaded file is acceptable and the object store
    accepts it: the rejection is logged and nothing else, the upload
    request follows the deletion request, the record is saved with the
    new [{url, fileId}] and the acting admin, and the call returns that
    document. *)
Theorem updateBackgroundImage_failed_delete_is_swallowed
        adminId file bytes w i r fileId error uploadResult :
  list_find (fun r => Is_true (is_active r)) (siteSettings w) = Some (i, r) ->
  prop (get r "backgroundImage") "fileId" = fileId ->
  truthy fileId = true ->
  uploader_destroy cloudinary (cloudCalls w) fileId = Some error ->
  file_name file <> "" ->
  mimetype file ∈ ImageService.allowedTypes ->
  size file <> 0 ->
  size file <= maxFileSize config ->
  data file = Some bytes ->
  uploader_upload cloudinary (cloudCalls w ++ [Destroy fileId]) file
    "caterine/backgrounds" = inr uploadResult ->
  let out := AdminService.updateBackgroundImage cloudinary config adminId
               (OneFile file) w in
  succeeded out = true
  /\ stored_field out i "backgroundImage" = Some (image_of_upload uploadResult)
  /\ returned_field out "backgroundImage" = Some (image_of_upload uploadResult)
  /\ stored_field out i "updatedBy" = Some (JStr adminId)
  /\ cloudCalls out.2
     = cloudCalls w ++ [Destroy fileId; Upload file "caterine/backgrounds"]
  /\ stderr out.2
     = stderr w ++ ["Failed to delete image from Cloudinary: "
                    +:+ error_message error].
Proof.
  intros Hfind Hfid Htruthy Hdestroy Hname Hmime Hsize Hmax Hdata Hupload out.
  assert (Hrun : out
    = populate_updatedBy
        {| _id := i; isNew := false;
           fields := <["updatedBy" := JStr adminId]>
                       (<["backgroundImage" := image_of_upload uploadResult]> r) |}
        {| siteSettings :=
             <[i := <["updatedBy" := JStr adminId]>
                      (<["backgroundImage" := image_of_upload uploadResult]> r)]>
               (siteSettings w);
           admins := admins w;
           cloudCalls := (cloudCalls w ++ [Destroy fileId])
                           ++ [Upload file "caterine/backgrounds"];
           stderr := stderr w ++ ["Failed to delete image from Cloudinary: "
                                  +:+ error_message error] |}).
  { unfold out, AdminService.updateBackgroundImage, AdminService.replace_image.
    cbn [ImageService.validateImageFile]. rewrite run_bind_ret.
    unfold findOne_isActive. rewrite run_bind_gets, Hfind.
    cbn [fmap option_fmap option_map fields].
    unfold AdminService.delete_previous. rewrite Hfid, Htruthy.
    rewrite run_bind, (deleteImage_run_rejected _ _ _ Htruthy Hdestroy).
    rewrite run_bind. unfold ImageService.uploadBackgroundImage.
    rewrite (uploadImage_run_accepted file "caterine/backgrounds" bytes
               uploadResult); try assumption.
    rewrite save_as_run by reflexivity. reflexivity. }
  destruct (populate_run
              {| _id := i; isNew := false;
                 fields := <["updatedBy" := JStr adminId]>
                             (<["backgroundImage" := image_of_upload uploadResult]> r) |}
              {| siteSettings :=
                   <[i := <["updatedBy" := JStr adminId]>
                            (<["backgroundImage" := image_of_upload uploadResult]> r)]>
                     (siteSettings w);
                 admins := admins w;
                 cloudCalls := (cloudCalls w ++ [Destroy fileId])
                                 ++ [Upload file "caterine/backgrounds"];
                 stderr := stderr w ++ ["Failed to delete image from Cloudinary: "
                                        +:+ error_message error] |})
    as (d & Hpop & _ & Hfields).
  rewrite Hrun, Hpop. unfold succeeded, stored_field, returned_field.
  cbn [fst snd siteSettings cloudCalls stderr].
  apply find_active_lt in Hfind as (_ & _ & Hlt).
  rewrite list_lookup_insert_eq by exact Hlt. cbn [mbind option_bind].
  split; [reflexivity|].
  split; [rewrite lookup_insert_ne by discriminate; apply lookup_insert_eq|].
  split.
  { rewrite Hfields by discriminate. cbn [fields].
    rewrite lookup_insert_ne by discriminate. apply lookup_insert_eq. }
  split; [apply lookup_insert_eq|].
  split; [rewrite <- app_assoc; reflexivity|reflexivity].
Qed.

(** An index at or beyond the length of the menu list, or a record
    without menu list, has no menu item. *)
Lemma no_menu_item_out_of_range (d : Document) (itemIndex : Z) :
  Z.of_nat (length (elements_of (get (fields d) "menuChildWithImage"))) <= itemIndex
  \/ truthy (get (fields d) "menuChildWithImage") = false ->
  AdminService.no_menu_item d itemIndex = true.
Proof.
  unfold AdminService.no_menu_item. intros [Hge|Hno].
  - destruct (get (fields d) "menuChildWithImage") as [| |b|q|s|l|m];
      cbn [index]; try apply orb_true_r.
    cbn [truthy negb orb elements_of] in *.
    destruct (itemIndex <? 0) eqn:Hneg; [reflexivity|].
    apply Z.ltb_ge in Hneg.
    rewrite lookup_ge_None_2 by lia. reflexivity.
  - rewrite Hno. reflexivity.
Qed.

(** C8. On an active record whose menu list has [n] items,
    [updateMenuChildItem] and [deleteMenuChildItem] with an index [i >= n],
    or on a record without menu list, throw "not found" (404) and change
    nothing: neither the settings record, nor the object store, nor the
    log.  [updateMenuChildItem] with index 5 on a record with 2 items
    throws "not found". *)
Theorem menu_item_out_of_range_not_found adminId itemIndex itemData w i r :
  list_find (fun r => Is_true (is_active r)) (siteSettings w) = Some (i, r) ->
  Z.of_nat (length (elements_of (get r "menuChildWithImage"))) <= itemIndex
  \/ truthy (get r "menuChildWithImage") = false ->
  AdminService.updateMenuChildItem cloudinary adminId itemIndex itemData w
  = (inl {| message := "Menu item not found"; statusCode := 404 |}, w)
  /\ AdminService.deleteMenuChildItem cloudinary adminId itemIndex w
     = (inl {| message := "Menu item not found"; statusCode := 404 |}, w)
  /\ (length (elements_of (get sample_settings "menuChildWithImage")) = 2%nat
      /\ AdminService.updateMenuChildItem cloudinary "admin-1" 5
           {| upd_title := Some "stew"; upd_content := None;
              upd_price := None; upd_image := None |} sample_world
         = (inl {| message := "Menu item not found"; statusCode := 404 |},
            sample_world)).
Proof.
  intros Hfind Hrange.
  split; [|split; [|split; reflexivity]].
  - unfold AdminService.updateMenuChildItem, findOne_isActive.
    rewrite run_bind_gets, Hfind. cbn [fmap option_fmap option_map].
    rewrite no_menu_item_out_of_range by exact Hrange. reflexivity.
  - unfold AdminService.deleteMenuChildItem, findOne_isActive.
    rewrite run_bind_gets, Hfind. cbn [fmap option_fmap option_map].
    rewrite no_menu_item_out_of_range by exact Hrange. reflexivity.
Qed.

End ImagesAndMenu.

Lemma updateBackgroundImage_failed_delete_is_swallowed_witness :
  let out := AdminService.updateBackgroundImage sample_cloud sample_config
               "admin-1" (OneFile sample_file) sample_world in
  succeeded out = true
  /\ stored_field out 0 "backgroundImage"
     = Some (image_object (JStr "https://cdn/caterine/backgrounds/bg.png")
                          (JStr "caterine/backgrounds/bg.png"))
  /\ cloudCalls out.2
     = [Destroy (JStr "bg-1"); Upload sample_file "caterine/backgrounds"]
  /\ stderr out.2 = ["Failed to delete image from Cloudinary: unavailable"].
Proof.
  destruct (updateBackgroundImage_failed_delete_is_swallowed
              sample_cloud sample_config "admin-1" sample_file "iVBORw0KGgo="
              sample_world 0%nat sample_settings (JStr "bg-1")
              {| http_code := Some 500; error_message := "unavailable" |}
              {| url := "https://cdn/caterine/backgrounds/bg.png";
                 fileId := "caterine/backgrounds/bg.png" |}
              ltac:(reflexivity) ltac:(reflexivity) ltac:(reflexivity)
              ltac:(reflexivity) ltac:(discriminate)
              ltac:(unfold ImageService.allowedTypes; cbn;
                    rewrite !elem_of_cons; auto)
              ltac:(discriminate)
              ltac:(apply Z.leb_le; reflexivity)
              ltac:(reflexivity)
              ltac:(reflexivity))
    as (Hok & Hst & _ & _ & Hcalls & Herr).
  repeat split; assumption.
Defined.

Lemma menu_item_out_of_range_not_found_witness :
  AdminService.deleteMenuChildItem sample_cloud "admin-1" 2 sample_world
  = (inl {| message := "Menu item not found"; statusCode := 404 |}, sample_world).
Proof.
  apply (menu_item_out_of_range_not_found sample_cloud "admin-1" 2
           {| upd_title := None; upd_content := None;
              upd_price := None; upd_image := None |}
           sample_world 0%nat sample_settings ltac:(reflexivity)).
  left. apply Z.leb_le. reflexivity.
Defined.

(* ===================================================================== *)
(** ** Properties of the admin login                                       *)
(* ===================================================================== *)

Section Login.

Context (bcrypt_compare : string -> string -> bool)
        (signToken : string -> string).

(** With unique emails, the query of [loginAdmin] finds the admin of that
    email when the admin is active, and nothing otherwise. *)
Lemma Admin_findOne_unique e i admin w :
  admins w !! i = Some admin ->
  email admin = e ->
  (forall j other, admins w !! j = Some other -> email other = e -> j = i) ->
  list_find (fun a => email a = e /\ active a <> Some false) (admins w)
  = if bool_decide (active admin = Some false) then None else Some (i, admin).
Proof.
  intros Hi He Huniq. case_bool_decide as Hact.
  - apply list_find_None. apply Forall_forall. intros other Hin [Hoe Hoa].
    apply list_elem_of_lookup in Hin as [j Hj].
    pose proof (Huniq j other Hj Hoe) as ->.
    rewrite Hi in Hj. injection Hj as <-. contradiction.
  - apply list_find_Some. split; [exact Hi|]. split; [split; assumption|].
    intros j other Hj Hlt [Hoe _].
    pose proof (Huniq j other Hj Hoe). lia.
Qed.

(** C9. For the admin registered under the email of the credentials, and
    a password that [bcrypt.compare] accepts against the stored digest:
    when the admin is active, [loginAdmin] returns the admin and the token
    signed for the admin's id, which is not empty, the stored admin has
    [lastLoginAt] set to the time of the call, and the controller answers
    200 with that token; when the admin's [active] flag is [false], the
    call throws "unauthenticated" (401), as does the controller, and
    nothing is stored, so [lastLoginAt] is as before. *)
Theorem loginAdmin_correct now credentials w i admin :
  admins w !! i = Some admin ->
  email admin = login_email credentials ->
  (forall j other, admins w !! j = Some other ->
                   email other = login_email credentials -> j = i) ->
  bcrypt_compare (login_password credentials) (password admin) = true ->
  signToken (admin_id admin) <> "" ->
  (active admin <> Some false ->
   exists admin' token response,
     AdminService.loginAdmin bcrypt_compare signToken now credentials w
     = (inr (admin', token), set_admins (<[i := admin']> (admins w)) w)
     /\ token = signToken (admin_id admin) /\ token <> ""
     /\ lastLoginAt admin' = Some now
     /\ admin_id admin' = admin_id admin /\ email admin' = email admin
     /\ active admin' = active admin
     /\ AdminController.login bcrypt_compare signToken now credentials w
        = (inr response, set_admins (<[i := admin']> (admins w)) w)
     /\ AdminController.status response = 200
     /\ prop (prop (AdminController.body response) "data") "token" = JStr token)
  /\ (active admin = Some false ->
      AdminService.loginAdmin bcrypt_compare signToken now credentials w
      = (inl {| message := "Incorrect email or password"; statusCode := 401 |}, w)
      /\ AdminController.login bcrypt_compare signToken now credentials w
         = (inl {| message := "Incorrect email or password"; statusCode := 401 |}, w)).
Proof.
  intros Hi He Huniq Hpw Htok.
  pose proof (Admin_findOne_unique _ _ _ _ Hi He Huniq) as Hfind.
  split.
  - intros Hact. rewrite bool_decide_eq_false_2 in Hfind by exact Hact.
    assert (Hrun :
      AdminService.loginAdmin bcrypt_compare signToken now credentials w
      = (inr ({| admin_id := admin_id admin; name := name admin;
                 email := email admin; password := password admin;
                 active := active admin; lastLoginAt := Some now |},
              signToken (admin_id admin)),
         set_admins
           (<[i := {| admin_id := admin_id admin; name := name admin;
                      email := email admin; password := password admin;
                      active := active admin; lastLoginAt := Some now |}]>
              (admins w)) w)).
    { unfold AdminService.loginAdmin, AdminService.Admin_findOne.
      rewrite run_bind_gets, Hfind.
      unfold AdminService.correctPassword. rewrite Hpw. reflexivity. }
    eexists _, _, _. split; [exact Hrun|]. split; [reflexivity|].
    split; [exact Htok|]. split; [reflexivity|]. split; [reflexivity|].
    split; [reflexivity|]. split; [reflexivity|].
    unfold AdminController.login. rewrite run_bind, Hrun.
    split; [reflexivity|]. split; reflexivity.
  - intros Hact. rewrite bool_decide_eq_true_2 in Hfind by exact Hact.
    assert (Hrun :
      AdminService.loginAdmin bcrypt_compare signToken now credentials w
      = (inl {| message := "Incorrect email or password"; statusCode := 401 |}, w)).
    { unfold AdminService.loginAdmin, AdminService.Admin_findOne.
      rewrite run_bind_gets, Hfind. reflexivity. }
    split; [exact Hrun|].
    unfold AdminController.login. rewrite run_bind, Hrun. reflexivity.
Qed.

End Login.

Lemma loginAdmin_correct_witness :
  (exists admin' token,
     (AdminService.loginAdmin sample_compare sample_sign 1000
        {| login_email := "root@example.com"; login_password := "secret" |}
        sample_world).1 = inr (admin', token)
     /\ token = "jwt.admin-1" /\ lastLoginAt admin' = Some 1000)
  /\ AdminService.loginAdmin sample_compare sample_sign 1000
       {| login_email := "gone@example.com"; login_password := "secret" |}
       sample_world
     = (inl {| message := "Incorrect email or password"; statusCode := 401 |},
        sample_world).
Proof.
  split.
  - destruct (loginAdmin_correct sample_compare sample_sign 1000
                {| login_email := "root@example.com"; login_password := "secret" |}
                sample_world 0%nat (sample_admin "admin-1" "root@example.com" true)
                ltac:(reflexivity) ltac:(reflexivity)
                ltac:(intros [|[|[|j]]] other Hj He;
                      [reflexivity|injection Hj as <-; discriminate He
                      |discriminate Hj|discriminate Hj])
                ltac:(reflexivity) ltac:(discriminate))
      as [Hok _].
    destruct (Hok ltac:(discriminate))
      as (admin' & token & _ & Hrun & Htoken & _ & Hlast & _).
    exists admin', token. rewrite Hrun. split; [reflexivity|].
    split; [exact Htoken|exact Hlast].
  - apply (loginAdmin_correct sample_compare sample_sign 1000
             {| login_email := "gone@example.com"; login_password := "secret" |}
             sample_world 1%nat (sample_admin "admin-2" "gone@example.com" false)
             ltac:(reflexivity) ltac:(reflexivity)
             ltac:(intros [|[|[|j]]] other Hj He;
                   [injection Hj as <-; discriminate He|reflexivity
                   |discriminate Hj|discriminate Hj])
             ltac:(reflexivity) ltac:(discriminate)).
    reflexivity.
Defined.

(* ===================================================================== *)
(** ** The single active record                                            *)
(* ===================================================================== *)

Section SingleActiveRecord.
Import SiteSettings.

Context (cloudinary : Cloudinary) (config : Config).

Lemma post_throw {A} l (e : AppError) Q : Q l -> post l (@throw A e) Q.
Proof. intros HQ w Hw. cbn. rewrite Hw. exact HQ. Qed.

Lemma post_bind_stable {A B} l (m : Svc A) (f : A -> Svc B) Q :
  stable m -> Q l -> (forall x, post l (f x) Q) -> post l (m ≫= f) Q.
Proof.
  intros Hm HQ Hf w Hw. rewrite run_bind. specialize (Hm w).
  destruct (m w) as [[e|x] w']; cbn in *.
  - rewrite Hm, Hw. exact HQ.
  - apply Hf. rewrite Hm. exact Hw.
Qed.

Lemma post_findOne {B} l (f : option Document -> Svc B) Q :
  post l (f (found_active l)) Q -> post l (findOne_isActive ≫= f) Q.
Proof.
  intros H w Hw. unfold findOne_isActive. rewrite run_bind_gets, Hw.
  apply H. exact Hw.
Qed.

Lemma post_save_as l adminId (d : Document) fields' (Q : _ -> Prop) :
  isNew d = false ->
  Q (<[_id d := <["updatedBy" := JStr adminId]> fields']> l) ->
  post l (AdminService.save_as adminId d fields') Q.
Proof.
  intros Hnew HQ w Hw. rewrite save_as_run by exact Hnew.
  rewrite populate_run_state. cbn. rewrite Hw. exact HQ.
Qed.

Lemma is_active_insert_ne k v r :
  k <> "isActive" -> is_active (<[k := v]> r) = is_active r.
Proof.
  intros Hk. unfold is_active. rewrite lookup_insert_ne by exact Hk.
  reflexivity.
Qed.

Lemma is_active_lookup r r' :
  r' !! "isActive" = r !! "isActive" -> is_active r' = is_active r.
Proof. intros H. unfold is_active. rewrite H. reflexivity. Qed.

(** Overwriting a record by one with the same flag keeps the count. *)
Lemma count_active_insert l i r r' :
  l !! i = Some r ->
  is_active r' = is_active r ->
  count_active (<[i := r']> l) = count_active l.
Proof.
  intros Hi Hact. unfold count_active.
  rewrite insert_take_drop by (eapply lookup_lt_Some; exact Hi).
  rewrite <- (take_drop_middle l i r Hi) at 3.
  rewrite !filter_app, !filter_cons, Hact, !length_app.
  destruct (decide (is_active r)); reflexivity.
Qed.

Lemma count_active_deactivated l :
  count_active (insert "isActive" (JBool false) <$> l) = 0%nat.
Proof.
  unfold count_active. induction l as [|r l IH]; [reflexivity|].
  rewrite fmap_cons, filter_cons_False; [exact IH|].
  unfold is_active. rewrite lookup_insert_eq. exact id.
Qed.

Lemma count_active_snoc l r :
  count_active (l ++ [r])
  = (count_active l + if is_active r then 1 else 0)%nat.
Proof.
  unfold count_active. rewrite filter_app, length_app.
  f_equal. rewrite filter_cons.
  destruct (is_active r); reflexivity.
Qed.

(** A collection with an active record has one that [findOne] finds. *)
Lemma found_active_of_count l :
  count_active l <> 0%nat ->
  exists i r, found_active l = Some {| _id := i; isNew := false; fields := r |}
              /\ list_find (fun r => Is_true (is_active r)) l = Some (i, r)
              /\ l !! i = Some r /\ is_active r = true.
Proof.
  intros Hcount. unfold found_active.
  destruct (list_find (fun r => Is_true (is_active r)) l) as [[i r]|] eqn:Hfind.
  - exists i, r. split; [reflexivity|]. split; [reflexivity|].
    apply find_active_lt in Hfind as (Hi & Hact & _). split; assumption.
  - exfalso. apply Hcount. apply list_find_None in Hfind. clear Hcount.
    unfold count_active. induction Hfind as [|r l' Hr _ IH]; [reflexivity|].
    rewrite filter_cons_False by exact Hr. exact IH.
Qed.

Lemma found_active_Some l (d : Document) :
  found_active l = Some d ->
  isNew d = false
  /\ l !! _id d = Some (fields d) /\ is_active (fields d) = true.
Proof.
  unfold found_active.
  destruct (list_find (fun r => Is_true (is_active r)) l) as [[i r]|] eqn:Hfind;
    [|discriminate].
  intros [= <-]. cbn. apply find_active_lt in Hfind as (Hi & Hact & _).
  split; [reflexivity|]. split; assumption.
Qed.

(** The tail shared by the image and menu operations keeps the count
    when it writes a field other than [isActive]. *)
Lemma post_save_as_field l adminId (d : Document) k v :
  found_active l = Some d ->
  k <> "isActive" ->
  count_active l = 1%nat ->
  post l (AdminService.save_as adminId d (<[k := v]> (fields d)))
       (fun l' => count_active l' = 1%nat).
Proof.
  intros Hd Hk Hcount. apply found_active_Some in Hd as (Hnew & Hi & Hact).
  apply post_save_as; [exact Hnew|].
  rewrite (count_active_insert l (_id d) (fields d)); [exact Hcount|exact Hi|].
  rewrite !is_active_insert_ne by (try discriminate; exact Hk). reflexivity.
Qed.

Create HintDb stable.

#[local] Hint Resolve stable_ret stable_throw stable_gets stable_populate
  stable_validateImageFile stable_deleteImage stable_delete_previous
  stable_uploadImage stable_console_error : stable.

Ltac post_step :=
  match goal with
  | |- post _ (throw _) _ => apply post_throw; assumption
  | |- post _ (findOne_isActive ≫= _) _ => apply post_findOne
  | |- post ?l (match found_active ?l with Some _ => _ | None => _ end) _ =>
      let Hd := fresh "Hd" in
      destruct (found_active l) as [?d|] eqn:Hd
  | |- post _ (if ?b then _ else _) _ => destruct b
  | |- post _ (AdminService.save_as _ _ (<[_ := _]> _)) _ =>
      apply post_save_as_field; [assumption|discriminate|assumption]
  | |- post _ (_ ≫= _) _ =>
      apply post_bind_stable; [auto with stable|assumption|intros ?]
  end.

Lemma replace_image_keeps_count l field upload adminId file :
  (forall f, stable (upload f)) ->
  field <> "isActive" ->
  count_active l = 1%nat ->
  post l (AdminService.replace_image cloudinary field upload adminId file)
       (fun l' => count_active l' = 1%nat).
Proof.
  intros Hupload Hfield Hcount. unfold AdminService.replace_image.
  repeat post_step.
  apply post_save_as_field; assumption.
Qed.

Lemma reset_image_keeps_count l field default_url adminId :
  field <> "isActive" ->
  count_active l = 1%nat ->
  post l (AdminService.reset_image cloudinary field default_url adminId)
       (fun l' => count_active l' = 1%nat).
Proof.
  intros Hfield Hcount. unfold AdminService.reset_image.
  repeat post_step.
  apply post_save_as_field; assumption.
Qed.

Lemma updateSiteSettings_keeps_count l adminId data :
  keeps_isActive data = true ->
  count_active l = 1%nat ->
  post l (AdminService.updateSiteSettings adminId data)
       (fun l' => count_active l' = 1%nat).
Proof.
  intros Hkeep Hcount w Hw.
  destruct (found_active_of_count l) as (i & r & _ & Hfind & Hi & Hact);
    [lia|].
  rewrite <- Hw in Hfind.
  rewrite (updateSiteSettings_run _ _ _ _ _ Hfind), populate_run_state.
  cbn [siteSettings set_siteSettings]. rewrite Hw.
  rewrite (count_active_insert l i r); [exact Hcount|exact Hi|].
  rewrite is_active_insert_ne by discriminate.
  apply is_active_lookup. rewrite assign_all_lookup.
  unfold keeps_isActive in Hkeep.
  assert (Hr : r !! "isActive" = Some (JBool true)).
  { unfold is_active in Hact.
    destruct (r !! "isActive") as [[| |[|]| | | |]|]; try discriminate Hact.
    reflexivity. }
  destruct (data !! "isActive") as [v|]; [|reflexivity].
  unfold AdminService.assign_key, get. rewrite Hr.
  destruct v as [| |b|q|s|items|props]; try discriminate Hkeep;
    cbn; try exact Hr.
  subst b. apply lookup_insert_eq.
Qed.

Lemma restoreSiteSettings_keeps_count l adminId settingsId :
  count_active l = 1%nat ->
  post l (AdminService.restoreSiteSettings adminId settingsId)
       (fun l' => count_active l' = 1%nat).
Proof.
  intros Hcount w Hw.
  destruct (siteSettings w !! settingsId) as [target|] eqn:Htarget.
  - rewrite (restoreSiteSettings_run _ _ _ _ Htarget), populate_run_state.
    cbn [siteSettings set_siteSettings].
    rewrite count_active_snoc, count_active_deactivated.
    unfold is_active. rewrite restored_input_lookup. reflexivity.
  - unfold AdminService.restoreSiteSettings, findById.
    rewrite run_bind_gets, Htarget. cbn. rewrite Hw. exact Hcount.
Qed.

Lemma stable_if {A} (b : bool) (m1 m2 : Svc A) :
  stable m1 -> stable m2 -> stable (if b then m1 else m2).
Proof. destruct b; auto. Qed.

#[local] Hint Resolve stable_if : stable.

Lemma menu_operations_keep_count l :
  count_active l = 1%nat ->
  (forall adminId itemData,
      post l (AdminService.addMenuChildItem adminId itemData)
           (fun l' => count_active l' = 1%nat))
  /\ (forall adminId itemIndex itemData,
        post l (AdminService.updateMenuChildItem cloudinary adminId itemIndex itemData)
             (fun l' => count_active l' = 1%nat))
  /\ (forall adminId itemIndex file,
        post l (AdminService.updateMenuChildImage cloudinary config adminId
                  itemIndex file)
             (fun l' => count_active l' = 1%nat))
  /\ (forall adminId itemIndex,
        post l (AdminService.removeMenuChildImage cloudinary adminId itemIndex)
             (fun l' => count_active l' = 1%nat))
  /\ (forall adminId itemIndex,
        post l (AdminService.deleteMenuChildItem cloudinary adminId itemIndex)
             (fun l' => count_active l' = 1%nat)).
Proof.
  intros Hcount. repeat split; intros.
  - unfold AdminService.addMenuChildItem. repeat post_step.
  - unfold AdminService.updateMenuChildItem, AdminService.set_menu_item.
    repeat post_step.
  - unfold AdminService.updateMenuChildImage, AdminService.set_menu_item.
    repeat post_step.
  - unfold AdminService.removeMenuChildImage, AdminService.set_menu_item.
    repeat post_step.
  - unfold AdminService.deleteMenuChildItem. repeat post_step.
Qed.

(** Every request that leaves the flag of its payload alone keeps the
    number of active records at one, whether it succeeds or throws. *)
Lemma perform_keeps_count op w :
  keeps_active_flag op = true ->
  active_count w = 1%nat ->
  active_count (perform cloudinary config op w).2 = 1%nat.
Proof.
  intros Hop Hcount. unfold active_count in *.
  destruct (menu_operations_keep_count (siteSettings w) Hcount)
    as (Hadd & Hupd & Himg & Hrem & Hdel).
  destruct op; cbn [perform keeps_active_flag] in *.
  - apply (updateSiteSettings_keeps_count (siteSettings w)); auto.
  - apply (restoreSiteSettings_keeps_count (siteSettings w)); auto.
  - apply (replace_image_keeps_count (siteSettings w) "backgroundImage"
             (ImageService.uploadBackgroundImage cloudinary config) adminId file);
      auto; first [discriminate | intros f; apply stable_uploadImage].
  - apply (replace_image_keeps_count (siteSettings w) "aboutSectionImage"
             (ImageService.uploadAboutSectionImage cloudinary config) adminId file);
      auto; first [discriminate | intros f; apply stable_uploadImage].
  - apply (replace_image_keeps_count (siteSettings w) "menuMainImage"
             (fun file => ImageService.uploadImage cloudinary config file
                            "caterine/menu-main") adminId file);
      auto; first [discriminate | intros f; apply stable_uploadImage].
  - apply Himg; reflexivity.
  - apply (reset_image_keeps_count (siteSettings w) "backgroundImage"
             (JStr "default-bg.jpg") adminId); auto; discriminate.
  - apply (reset_image_keeps_count (siteSettings w) "aboutSectionImage"
             JNull adminId); auto; discriminate.
  - apply (reset_image_keeps_count (siteSettings w) "menuMainImage"
             JNull adminId); auto; discriminate.
  - apply Hrem; reflexivity.
  - apply Hadd; reflexivity.
  - apply Hupd; reflexivity.
  - apply Hdel; reflexivity.
Qed.



End SingleActiveRecord.


(* ===================================================================== *)
(** ** Properties of the pagination helper                                 *)
(* ===================================================================== *)

Section Pagination.
Import Helpers.

Lemma Math_ceil_quotient (a b : Z) :
  0 < b -> Math_ceil (inject_Z a / inject_Z b) = - ((- a) / b).
Proof.
  intros Hb. unfold Math_ceil, Qceiling, Qfloor.
  destruct b as [|p|p]; try lia.
  cbn. f_equal. f_equal; lia.
Qed.

Lemma Math_ceil_bounds (a b : Z) :
  0 < b ->
  (Math_ceil (inject_Z a / inject_Z b) - 1) * b < a
    <= Math_ceil (inject_Z a / inject_Z b) * b.
Proof.
  intros Hb. rewrite Math_ceil_quotient by exact Hb.
  pose proof (Z.div_mod (- a) b ltac:(lia)) as Hdm.
  pose proof (Z.mod_pos_bound (- a) b Hb) as Hm.
  nia.
Qed.

(** C2. For [total >= 0], [limit >= 1] and [page >= 1],
    [getPaginationMeta] returns the record of its three arguments together
    with [totalPages = ceil(total/limit)] (the integer [n] with
    [(n-1)*limit < total <= n*limit]), [hasNextPage] true exactly when
    [page < totalPages], and [hasPrevPage] true exactly when [page > 1];
    and [getPaginationMeta(25, 2, 10)] is
    [{total:25, page:2, limit:10, totalPages:3, hasNextPage:true,
      hasPrevPage:true}]. *)
Theorem getPaginationMeta_correct (total page limit : Z) :
  0 <= total -> 1 <= limit -> 1 <= page ->
  let m := getPaginationMeta total page limit in
  m = {| Helpers.total := total; Helpers.page := page; Helpers.limit := limit;
         totalPages := totalPages m;
         hasNextPage := hasNextPage m;
         hasPrevPage := hasPrevPage m |}
  /\ (totalPages m - 1) * limit < total <= totalPages m * limit
  /\ (hasNextPage m = true <-> page < totalPages m)
  /\ (hasPrevPage m = true <-> page > 1)
  /\ getPaginationMeta 25 2 10
     = {| Helpers.total := 25; Helpers.page := 2; Helpers.limit := 10;
          totalPages := 3; hasNextPage := true; hasPrevPage := true |}.
Proof.
  intros Ht Hl Hp m. subst m. cbn [totalPages hasNextPage hasPrevPage getPaginationMeta].
  split; [reflexivity|].
  split; [apply Math_ceil_bounds; lia|].
  split; [apply Z.ltb_lt|].
  split; [rewrite Z.gtb_ltb, Z.ltb_lt; lia|].
  reflexivity.
Qed.

Lemma getPaginationMeta_correct_witness :
  let m := getPaginationMeta 25 2 10 in
  (totalPages m - 1) * 10 < 25 <= totalPages m * 10
  /\ (hasNextPage m = true <-> 2 < totalPages m).
Proof.
  pose proof (getPaginationMeta_correct 25 2 10
                ltac:(lia) ltac:(lia) ltac:(lia)) as H.
  cbv zeta in H. destruct H as (_ & Hb & Hn & _). split; assumption.
Defined.

(** C3 as stated does not hold: on an empty result set the second page
    still reports a previous page. *)
Lemma getPaginationMeta_empty_page2_hasPrev :
  ~ (forall page limit : Z, 1 <= page -> 1 <= limit ->
       totalPages (getPaginationMeta 0 page limit) = 0
       /\ hasNextPage (getPaginationMeta 0 page limit) = false
       /\ hasPrevPage (getPaginationMeta 0 page limit) = false).
Proof.
  intros H. destruct (H 2 10 ltac:(lia) ltac:(lia)) as (_ & _ & Hprev).
  discriminate Hprev.
Qed.

(** C3 (amended). For every [page >= 1] and [limit >= 1],
    [getPaginationMeta(0, page, limit)] returns [totalPages = 0] and
    [hasNextPage = false]; [hasPrevPage] is [page > 1], hence false exactly
    on the first page. *)
Theorem getPaginationMeta_empty (page limit : Z) :
  1 <= page -> 1 <= limit ->
  totalPages (getPaginationMeta 0 page limit) = 0
  /\ hasNextPage (getPaginationMeta 0 page limit) = false
  /\ hasPrevPage (getPaginationMeta 0 page limit) = (page >? 1)
  /\ (hasPrevPage (getPaginationMeta 0 page limit) = false <-> page = 1).
Proof.
  intros Hp Hl. cbn [totalPages hasNextPage hasPrevPage getPaginationMeta].
  assert (Hz : Math_ceil (inject_Z 0 / inject_Z limit) = 0).
  { rewrite Math_ceil_quotient by lia. cbn. rewrite Z.div_0_l; lia. }
  rewrite Hz.
  split; [reflexivity|].
  split; [apply Z.ltb_ge; lia|].
  split; [reflexivity|].
  rewrite Z.gtb_ltb, Z.ltb_ge. lia.
Qed.

Lemma getPaginationMeta_empty_witness :
  totalPages (getPaginationMeta 0 3 10) = 0
  /\ hasNextPage (getPaginationMeta 0 3 10) = false
  /\ hasPrevPage (getPaginationMeta 0 3 10) = (3 >? 1)
  /\ (hasPrevPage (getPaginationMeta 0 3 10) = false <-> 3 = 1).
Proof. apply (getPaginationMeta_empty 3 10); lia. Defined.

End Pagination.

(* ===================================================================== *)
(** ** Further properties of the image service                             *)
(* ===================================================================== *)

Section ImageServiceProperties.

Context (cloudinary : Cloudinary) (config : Config).

Lemma world_eta (w : World) :
  {| siteSettings := siteSettings w; admins := admins w;
     cloudCalls := cloudCalls w; stderr := stderr w |} = w.
Proof. destruct w. reflexivity. Qed.

Lemma after_destroy_falsy fileId w :
  truthy fileId = false -> after_destroy cloudinary fileId w = w.
Proof.
  intros H. unfold after_destroy, destroy_requests, destroy_log.
  rewrite H, !app_nil_r. apply world_eta.
Qed.

(** What [deleteImage] does, in one equation. *)
Lemma deleteImage_run fileId w :
  ImageService.deleteImage cloudinary fileId w
  = (inr tt, after_destroy cloudinary fileId w).
Proof.
  unfold ImageService.deleteImage.
  destruct (truthy fileId) eqn:Htruthy; cbn [negb].
  - rewrite run_bind_gets, run_bind_modify.
    unfold after_destroy, destroy_requests, destroy_log. rewrite Htruthy.
    destruct (uploader_destroy cloudinary (cloudCalls w) fileId) as [e|];
      cbn; rewrite ?app_nil_r; reflexivity.
  - rewrite after_destroy_falsy by exact Htruthy. reflexivity.
Qed.

Lemma delete_previous_run image w :
  AdminService.delete_previous cloudinary image w
  = (inr tt, after_destroy cloudinary (prop image "fileId") w).
Proof.
  unfold AdminService.delete_previous.
  destruct (truthy (prop image "fileId")) eqn:Htruthy.
  - apply deleteImage_run.
  - rewrite after_destroy_falsy by exact Htruthy. reflexivity.
Qed.

(** X1. [deleteImage] never throws, whatever the object store answers: it
    returns, leaves both collections as they are, sends one request when
    the [fileId] is truthy and none otherwise, and logs one line exactly
    when the object store rejects the request. *)
Theorem deleteImage_never_throws fileId w :
  (ImageService.deleteImage cloudinary fileId w).1 = inr tt
  /\ siteSettings (ImageService.deleteImage cloudinary fileId w).2 = siteSettings w
  /\ admins (ImageService.deleteImage cloudinary fileId w).2 = admins w
  /\ cloudCalls (ImageService.deleteImage cloudinary fileId w).2
     = cloudCalls w ++ (if truthy fileId then [Destroy fileId] else [])
  /\ length (stderr (ImageService.deleteImage cloudinary fileId w).2)
     = (length (stderr w)
        + if truthy fileId
          then match uploader_destroy cloudinary (cloudCalls w) fileId with
               | Some _ => 1
               | None => 0
               end
          else 0)%nat.
Proof.
  rewrite deleteImage_run. unfold after_destroy, destroy_requests, destroy_log.
  cbn [fst snd siteSettings admins cloudCalls stderr].
  repeat split; try reflexivity.
  rewrite length_app.
  destruct (truthy fileId); [|reflexivity].
  destruct (uploader_destroy cloudinary (cloudCalls w) fileId); reflexivity.
Qed.

Lemma acceptable_spec file :
  acceptable config file = true
  <-> file_name file <> "" /\ mimetype file ∈ ImageService.allowedTypes
      /\ size file <> 0 /\ size file <= maxFileSize config
      /\ is_Some (data file).
Proof.
  unfold acceptable. rewrite !andb_true_iff, !negb_true_iff.
  rewrite String.eqb_neq, Z.eqb_neq, Z.leb_le, !bool_decide_eq_true. tauto.
Qed.

(** The [try] block on a file that is not acceptable: it throws before
    any request. *)
Lemma uploadImage_try_unacceptable file folder w :
  acceptable config file = false ->
  exists e, ImageService.uploadImage_try cloudinary config file folder w = (inl e, w)
            /\ (statusCode e = 400 \/ statusCode e = 500).
Proof.
  intros Hacc. unfold ImageService.uploadImage_try.
  destruct (String.eqb (file_name file) "" || String.eqb (mimetype file) ""
            || (size file =? 0)) eqn:H1;
    [eexists; split; [reflexivity|left; reflexivity]|].
  destruct (negb (bool_decide (mimetype file ∈ ImageService.allowedTypes))) eqn:H2;
    [eexists; split; [reflexivity|left; reflexivity]|].
  destruct (size file >? maxFileSize config) eqn:H3;
    [eexists; split; [reflexivity|left; reflexivity]|].
  destruct (data file) as [bytes|] eqn:H4;
    [|eexists; split; [reflexivity|right; reflexivity]].
  exfalso. apply not_true_iff_false in Hacc. apply Hacc.
  apply acceptable_spec.
  apply orb_false_iff in H1 as [H1 Hs]. apply orb_false_iff in H1 as [Hn _].
  apply negb_false_iff, bool_decide_eq_true in H2.
  rewrite Z.gtb_ltb in H3. apply Z.ltb_ge in H3.
  split; [apply String.eqb_neq; exact Hn|]. split; [exact H2|].
  split; [apply Z.eqb_neq; exact Hs|]. split; [exact H3|].
  rewrite H4. eauto.
Qed.

Lemma uploadImage_try_acceptable file folder w :
  acceptable config file = true ->
  ImageService.uploadImage_try cloudinary config file folder w
  = (inr (uploader_upload cloudinary (cloudCalls w) file folder),
     record_call (Upload file folder) w).
Proof.
  intros Hacc. apply acceptable_spec in Hacc as (Hn & Hm & Hs & Hmax & [bytes Hd]).
  unfold ImageService.uploadImage_try.
  assert (Hm' : mimetype file <> "").
  { intros Heq. rewrite Heq in Hm. revert Hm.
    unfold ImageService.allowedTypes. rewrite !elem_of_cons, elem_of_nil.
    intuition discriminate. }
  apply String.eqb_neq in Hn. apply String.eqb_neq in Hm'.
  apply Z.eqb_neq in Hs. rewrite Hn, Hm', Hs. cbn [orb].
  rewrite (bool_decide_eq_true_2 _ Hm). cbn [negb].
  assert (Hgt : (size file >? maxFileSize config) = false).
  { rewrite Z.gtb_ltb. apply Z.ltb_ge. exact Hmax. }
  rewrite Hgt, Hd. reflexivity.
Qed.

(** X2. [uploadImage] contacts the object store for acceptable files only:
    on a file with an empty name, a type outside JPEG, PNG and WebP, a size
    of zero or above the configured maximum, or without data, it throws an
    error of status 400 or 500, sends no request, leaves the settings as
    they are and logs one line. *)
Theorem uploadImage_rejects_before_upload file folder w :
  acceptable config file = false ->
  exists e,
    (ImageService.uploadImage cloudinary config file folder w).1 = inl e
    /\ (statusCode e = 400 \/ statusCode e = 500)
    /\ cloudCalls (ImageService.uploadImage cloudinary config file folder w).2
       = cloudCalls w
    /\ siteSettings (ImageService.uploadImage cloudinary config file folder w).2
       = siteSettings w
    /\ stderr (ImageService.uploadImage cloudinary config file folder w).2
       = stderr w ++ ["Cloudinary upload error details:"].
Proof.
  intros Hacc.
  destruct (uploadImage_try_unacceptable file folder w Hacc) as (e & Htry & Hcode).
  exists e. unfold ImageService.uploadImage. rewrite Htry.
  repeat split; try reflexivity. exact Hcode.
Qed.

(** X3. When [uploadImage] returns, the file was acceptable, the object
    store received exactly one more request, the upload of that file to
    that folder, and the result is what the object store answered; nothing
    else changed. *)
Theorem uploadImage_success_is_one_upload file folder w uploadResult w' :
  ImageService.uploadImage cloudinary config file folder w = (inr uploadResult, w') ->
  acceptable config file = true
  /\ uploader_upload cloudinary (cloudCalls w) file folder = inr uploadResult
  /\ w' = record_call (Upload file folder) w
  /\ cloudCalls w' = cloudCalls w ++ [Upload file folder]
  /\ siteSettings w' = siteSettings w /\ stderr w' = stderr w.
Proof.
  intros Hrun.
  destruct (acceptable config file) eqn:Hacc.
  - unfold ImageService.uploadImage in Hrun.
    rewrite (uploadImage_try_acceptable file folder w Hacc) in Hrun.
    destruct (uploader_upload cloudinary (cloudCalls w) file folder) as [e|r];
      [discriminate Hrun|].
    injection Hrun as <- <-. repeat split; reflexivity.
  - destruct (uploadImage_try_unacceptable file folder w Hacc) as (e & Htry & _).
    unfold ImageService.uploadImage in Hrun. rewrite Htry in Hrun.
    discriminate Hrun.
Qed.

(** X4. When the object store rejects the upload of an acceptable file,
    [uploadImage] throws an error whose status is the [http_code] of the
    rejection, or 500 when there is none, and whose message names the
    credentials when the code is 401; the request stays recorded and one
    line is logged. *)
Theorem uploadImage_store_rejection file folder w error :
  acceptable config file = true ->
  uploader_upload cloudinary (cloudCalls w) file folder = inl error ->
  exists e,
    ImageService.uploadImage cloudinary config file folder w
    = (inl e,
       {| siteSettings := siteSettings w; admins := admins w;
          cloudCalls := cloudCalls w ++ [Upload file folder];
          stderr := stderr w ++ ["Cloudinary upload error details:"] |})
    /\ statusCode e = match http_code error with
                      | Some c => if c =? 0 then 500 else c
                      | None => 500
                      end
    /\ (http_code error = Some 401 ->
        message e = "Cloudinary authentication failed. Please check your Cloudinary credentials.")
    /\ (http_code error <> Some 401 -> error_message error <> "" ->
        message e = error_message error).
Proof.
  intros Hacc Hup. eexists. unfold ImageService.uploadImage.
  rewrite (uploadImage_try_acceptable file folder w Hacc), Hup.
  split; [reflexivity|]. cbn [statusCode message]. split; [reflexivity|].
  split.
  - intros H. rewrite bool_decide_eq_true_2 by exact H. reflexivity.
  - intros H Hmsg. rewrite bool_decide_eq_false_2 by exact H.
    apply String.eqb_neq in Hmsg. rewrite Hmsg. reflexivity.
Qed.

End ImageServiceProperties.

Lemma uploadImage_rejects_before_upload_witness :
  exists e,
    (ImageService.uploadImage sample_cloud sample_config
       {| file_name := "a.gif"; mimetype := "image/gif"; size := 3;
          data := Some "R0lG" |} "caterine" sample_world).1 = inl e
    /\ statusCode e = 400.
Proof.
  destruct (uploadImage_rejects_before_upload sample_cloud sample_config
              {| file_name := "a.gif"; mimetype := "image/gif"; size := 3;
                 data := Some "R0lG" |} "caterine" sample_world
              ltac:(reflexivity))
    as (e & Hrun & _).
  exists e. split; [exact Hrun|].
  cbv in Hrun. injection Hrun as <-. reflexivity.
Defined.

Lemma uploadImage_success_is_one_upload_witness :
  acceptable sample_config sample_file = true
  /\ cloudCalls (record_call (Upload sample_file "caterine/about") sample_world)
     = [Upload sample_file "caterine/about"].
Proof.
  destruct (uploadImage_success_is_one_upload sample_cloud sample_config
              sample_file "caterine/about" sample_world
              {| url := "https://cdn/caterine/about/bg.png";
                 fileId := "caterine/about/bg.png" |}
              (record_call (Upload sample_file "caterine/about") sample_world)
              ltac:(reflexivity))
    as (Hacc & _ & _ & Hcalls & _).
  split; [exact Hacc|exact Hcalls].
Defined.

Lemma uploadImage_store_rejection_witness :
  exists e,
    (ImageService.uploadImage
       {| uploader_destroy := fun _ _ => None;
          uploader_upload := fun _ _ _ =>
            inl {| http_code := Some 401; error_message := "denied" |} |}
       sample_config sample_file "caterine" sample_world).1 = inl e
    /\ statusCode e = 401.
Proof.
  destruct (uploadImage_store_rejection
              {| uploader_destroy := fun _ _ => None;
                 uploader_upload := fun _ _ _ =>
                   inl {| http_code := Some 401; error_message := "denied" |} |}
              sample_config sample_file "caterine" sample_world
              {| http_code := Some 401; error_message := "denied" |}
              ltac:(reflexivity) ltac:(reflexivity))
    as (e & Hrun & Hcode & _).
  exists e. rewrite Hrun. split; [reflexivity|exact Hcode].
Defined.

(* ===================================================================== *)
(** ** Further properties of the settings model and of the update          *)
(* ===================================================================== *)

Section SettingsModelProperties.
Import SiteSettings.

(** What [create] does, in one equation. *)
Lemma create_run input w :
  create input w
  = (inr {| _id := length (siteSettings w); isNew := false;
            fields := with_defaults input |},
     set_siteSettings
       ((if truthy (get (with_defaults input) "isActive")
         then insert "isActive" (JBool false) <$> siteSettings w
         else siteSettings w) ++ [with_defaults input]) w).
Proof.
  unfold create. rewrite run_bind_gets. unfold save, pre_save.
  cbn [fields isNew _id]. rewrite andb_true_r.
  destruct (truthy (get (with_defaults input) "isActive")).
  - unfold updateMany_ne_id_deactivate.
    rewrite run_bind_modify, run_bind_modify. cbn [siteSettings set_siteSettings].
    rewrite imap_deactivate_all. reflexivity.
  - reflexivity.
Qed.

Lemma with_defaults_active input :
  active_by_default input = true ->
  with_defaults input !! "isActive" = Some (JBool true)
  /\ forall k, k <> "isActive" -> with_defaults input !! k = input !! k.
Proof.
  unfold active_by_default, with_defaults, get. intros H.
  destruct (input !! "isActive") as [v|] eqn:Hv.
  - destruct v as [| |[|]| | | |]; try discriminate H; cbn.
    + split; [apply lookup_insert_eq|].
      intros k Hk. apply lookup_insert_ne. congruence.
    + split; [exact Hv|reflexivity].
  - cbn. split; [apply lookup_insert_eq|].
    intros k Hk. apply lookup_insert_ne. congruence.
Qed.

(** After a sweep and the insertion of an active record, that record is
    the one that [findOne({ isActive: true })] finds. *)
Lemma found_active_after_sweep l new :
  is_active new = true ->
  found_active ((insert "isActive" (JBool false) <$> l) ++ [new])
  = Some {| _id := length l; isNew := false; fields := new |}.
Proof.
  intros Hnew. unfold found_active.
  assert (Hfind : list_find (fun r => Is_true (is_active r))
                    ((insert "isActive" (JBool false) <$> l) ++ [new])
                  = Some (length l, new)).
  { apply list_find_Some. split.
    - rewrite lookup_app_r by (rewrite length_fmap; lia).
      rewrite length_fmap, Nat.sub_diag. reflexivity.
    - split; [apply Is_true_true; exact Hnew|].
      intros j y Hj Hlt. rewrite lookup_app_l in Hj by (rewrite length_fmap; lia).
      rewrite list_lookup_fmap in Hj.
      destruct (l !! j) as [r|]; [|discriminate Hj]. injection Hj as <-.
      unfold is_active. rewrite lookup_insert_eq. exact id. }
  rewrite Hfind. reflexivity.
Qed.

Lemma count_active_after_sweep l new :
  is_active new = true ->
  count_active ((insert "isActive" (JBool false) <$> l) ++ [new]) = 1%nat.
Proof.
  intros Hnew. rewrite count_active_snoc, count_active_deactivated, Hnew.
  reflexivity.
Qed.

Lemma find_active_none_of_count l :
  count_active l = 0%nat ->
  list_find (fun r => Is_true (is_active r)) l = None.
Proof.
  intros Hcount.
  destruct (list_find (fun r => Is_true (is_active r)) l) as [[i r]|] eqn:Hfind;
    [|reflexivity].
  exfalso. apply list_find_Some in Hfind as (Hi & Hact & _).
  revert i Hi Hcount. unfold count_active.
  induction l as [|x l IH]; intros [|i] Hi Hcount; try discriminate Hi.
  - injection Hi as ->. rewrite filter_cons_True in Hcount by exact Hact.
    discriminate Hcount.
  - rewrite filter_cons in Hcount. destruct (decide (Is_true (is_active x))).
    + discriminate Hcount.
    + exact (IH i Hi Hcount).
Qed.

(** X5. The [pre('save')] hook at work: creating a document whose
    [isActive] is absent (the schema default applies) or [true] leaves
    exactly one active record, the new one, at the end of the collection,
    however many records were active before; every earlier record is the
    same record with [isActive: false].  Creating a document with
    [isActive: false] appends it and touches no other record. *)
Theorem create_ensures_single_active input w :
  (active_by_default input = true ->
   siteSettings (create input w).2
   = (insert "isActive" (JBool false) <$> siteSettings w) ++ [with_defaults input]
   /\ active_count (create input w).2 = 1%nat
   /\ found_active (siteSettings (create input w).2)
      = Some {| _id := length (siteSettings w); isNew := false;
                fields := with_defaults input |})
  /\ (input !! "isActive" = Some (JBool false) ->
      siteSettings (create input w).2 = siteSettings w ++ [input]
      /\ active_count (create input w).2 = active_count w).
Proof.
  rewrite create_run. cbn [snd siteSettings set_siteSettings]. split.
  - intros Hdef. destruct (with_defaults_active input Hdef) as [Hact _].
    assert (His : is_active (with_defaults input) = true).
    { unfold is_active. rewrite Hact. reflexivity. }
    unfold get. rewrite Hact. cbn [default truthy].
    split; [reflexivity|]. unfold active_count.
    cbn [siteSettings set_siteSettings].
    split; [apply count_active_after_sweep; exact His
           |apply found_active_after_sweep; exact His].
  - intros Hfalse.
    assert (Hwd : with_defaults input = input).
    { unfold with_defaults, get. rewrite Hfalse. reflexivity. }
    rewrite Hwd. unfold get. rewrite Hfalse. cbn [default truthy].
    split; [reflexivity|]. unfold active_count.
    cbn [siteSettings set_siteSettings].
    rewrite count_active_snoc. unfold is_active. rewrite Hfalse.
    apply Nat.add_0_r.
Qed.

Lemma create_ensures_single_active_witness :
  active_count
    (create {[ "heroSectionText" := sample_hero ]}
       (set_siteSettings [sample_settings; sample_settings] sample_world)).2
  = 1%nat.
Proof.
  apply (create_ensures_single_active {[ "heroSectionText" := sample_hero ]}
           (set_siteSettings [sample_settings; sample_settings] sample_world)).
  reflexivity.
Defined.



(** X7. [updateSiteSettings] is a partial update: on an existing active
    record it leaves every field that the payload does not name as it was,
    writes the acting admin under [updatedBy], adds no record and leaves
    every other record of the history untouched. *)
Theorem updateSiteSettings_leaves_the_rest adminId data w i r :
  list_find (fun r => Is_true (is_active r)) (siteSettings w) = Some (i, r) ->
  (forall k, data !! k = None -> k <> "updatedBy" ->
     stored_field (AdminService.updateSiteSettings adminId data w) i k = r !! k)
  /\ stored_field (AdminService.updateSiteSettings adminId data w) i "updatedBy"
     = Some (JStr adminId)
  /\ length (siteSettings (AdminService.updateSiteSettings adminId data w).2)
     = length (siteSettings w)
  /\ (forall j, j <> i ->
        siteSettings (AdminService.updateSiteSettings adminId data w).2 !! j
        = siteSettings w !! j)
  /\ admins (AdminService.updateSiteSettings adminId data w).2 = admins w
  /\ cloudCalls (AdminService.updateSiteSettings adminId data w).2 = cloudCalls w.
Proof.
  intros Hfind. pose proof (find_active_lt _ _ _ Hfind) as (_ & _ & Hlt).
  unfold stored_field.
  rewrite (updateSiteSettings_run _ _ _ _ _ Hfind), populate_run_state.
  cbn [siteSettings set_siteSettings admins cloudCalls].
  rewrite list_lookup_insert_eq by exact Hlt. cbn [mbind option_bind].
  split.
  { intros k Hk Hu. rewrite lookup_insert_ne by congruence.
    rewrite assign_all_lookup, Hk. reflexivity. }
  split; [apply lookup_insert_eq|]. split; [apply length_insert|].
  split; [|split; reflexivity].
  intros j Hj. apply list_lookup_insert_ne. congruence.
Qed.

Lemma updateSiteSettings_leaves_the_rest_witness :
  stored_field
    (AdminService.updateSiteSettings "admin-2"
       {[ "heroSectionText" := JObj {[ "title" := JStr "New" ]} ]} sample_world)
    0 "backgroundImage"
  = Some (image_object (JStr "https://cdn/bg.jpg") (JStr "bg-1")).
Proof.
  destruct (updateSiteSettings_leaves_the_rest "admin-2"
              {[ "heroSectionText" := JObj {[ "title" := JStr "New" ]} ]}
              sample_world 0%nat sample_settings ltac:(reflexivity))
    as (Hrest & _).
  apply (Hrest "backgroundImage"); [reflexivity|discriminate].
Defined.

(** X8. A restore repairs a broken collection: from any state in which the
    target exists, with no active record or with several, the collection
    ends with exactly one active record, the restored copy, which is the
    document that the next [findOne({ isActive: true })] returns. *)
Theorem restoreSiteSettings_ensures_single_active adminId settingsId w target :
  siteSettings w !! settingsId = Some target ->
  active_count (AdminService.restoreSiteSettings adminId settingsId w).2 = 1%nat
  /\ found_active
       (siteSettings (AdminService.restoreSiteSettings adminId settingsId w).2)
     = Some {| _id := length (siteSettings w); isNew := false;
               fields := AdminService.restored_input adminId
                           {| _id := settingsId; isNew := false;
                              fields := target |} |}.
Proof.
  intros Htarget.
  rewrite (restoreSiteSettings_run _ _ _ _ Htarget), populate_run_state.
  unfold active_count. cbn [siteSettings set_siteSettings].
  assert (His : is_active (AdminService.restored_input adminId
                   {| _id := settingsId; isNew := false; fields := target |})
                = true).
  { unfold is_active. rewrite restored_input_lookup. reflexivity. }
  split; [apply count_active_after_sweep; exact His
         |apply found_active_after_sweep; exact His].
Qed.

Lemma restoreSiteSettings_ensures_single_active_witness :
  active_count
    (AdminService.restoreSiteSettings "admin-1" 0
       (AdminService.updateSiteSettings "admin-1" {[ "isActive" := JBool false ]}
          sample_world).2).2 = 1%nat.
Proof.
  apply (restoreSiteSettings_ensures_single_active "admin-1" 0
           (AdminService.updateSiteSettings "admin-1"
              {[ "isActive" := JBool false ]} sample_world).2
           (<["updatedBy" := JStr "admin-1"]>
              (<["isActive" := JBool false]> sample_settings))).
  reflexivity.
Defined.

End SettingsModelProperties.

(* ===================================================================== *)
(** ** Further properties of the image and menu operations                 *)
(* ===================================================================== *)

Section OperationProperties.
Import SiteSettings.

Context (cloudinary : Cloudinary) (config : Config).

Lemma findOne_run {B} (f : option Document -> Svc B) w :
  (findOne_isActive ≫= f) w = f (found_active (siteSettings w)) w.
Proof. reflexivity. Qed.

Lemma found_active_find l i r :
  list_find (fun r => Is_true (is_active r)) l = Some (i, r) ->
  found_active l = Some {| _id := i; isNew := false; fields := r |}.
Proof. intros H. unfold found_active. rewrite H. reflexivity. Qed.

(** What a [save_as] on an existing record leaves behind. *)
Lemma save_as_outcome adminId i r fields' w :
  succeeded (AdminService.save_as adminId
               {| _id := i; isNew := false; fields := r |} fields' w) = true
  /\ siteSettings (AdminService.save_as adminId
                     {| _id := i; isNew := false; fields := r |} fields' w).2
     = <[i := <["updatedBy" := JStr adminId]> fields']> (siteSettings w)
  /\ admins (AdminService.save_as adminId
               {| _id := i; isNew := false; fields := r |} fields' w).2 = admins w
  /\ cloudCalls (AdminService.save_as adminId
                   {| _id := i; isNew := false; fields := r |} fields' w).2
     = cloudCalls w
  /\ stderr (AdminService.save_as adminId
               {| _id := i; isNew := false; fields := r |} fields' w).2 = stderr w.
Proof.
  rewrite save_as_run by reflexivity. rewrite populate_run_state.
  split; [apply populate_run_succeeded|]. repeat split; reflexivity.
Qed.

Lemma stored_field_save_as adminId i r fields' w k :
  (i < length (siteSettings w))%nat ->
  stored_field (AdminService.save_as adminId
                  {| _id := i; isNew := false; fields := r |} fields' w) i k
  = <["updatedBy" := JStr adminId]> fields' !! k.
Proof.
  intros Hlt. unfold stored_field.
  destruct (save_as_outcome adminId i r fields' w) as (_ & -> & _).
  rewrite list_lookup_insert_eq by exact Hlt. reflexivity.
Qed.

Lemma reset_image_run field default_url adminId w i r :
  list_find (fun r => Is_true (is_active r)) (siteSettings w) = Some (i, r) ->
  AdminService.reset_image cloudinary field default_url adminId w
  = AdminService.save_as adminId {| _id := i; isNew := false; fields := r |}
      (<[field := image_object default_url JNull]> r)
      (after_destroy cloudinary (field_fileId r field) w).
Proof.
  intros Hfind. unfold AdminService.reset_image.
  rewrite findOne_run, (found_active_find _ _ _ Hfind). cbn [fields].
  rewrite run_bind, delete_previous_run. reflexivity.
Qed.

Lemma replace_image_run field upload adminId file w i r :
  list_find (fun r => Is_true (is_active r)) (siteSettings w) = Some (i, r) ->
  AdminService.replace_image cloudinary field upload adminId (OneFile file) w
  = match upload file (after_destroy cloudinary (field_fileId r field) w) with
    | (inl e, w') => (inl e, w')
    | (inr uploadResult, w') =>
        AdminService.save_as adminId {| _id := i; isNew := false; fields := r |}
          (<[field := image_of_upload uploadResult]> r) w'
    end.
Proof.
  intros Hfind. unfold AdminService.replace_image.
  cbn [ImageService.validateImageFile]. rewrite run_bind_ret.
  rewrite findOne_run, (found_active_find _ _ _ Hfind). cbn [fields].
  rewrite run_bind, delete_previous_run. rewrite run_bind. reflexivity.
Qed.

Lemma menu_item_present i r itemIndex item :
  0 <= itemIndex ->
  menu_of r !! Z.to_nat itemIndex = Some item ->
  truthy item = true ->
  AdminService.no_menu_item {| _id := i; isNew := false; fields := r |} itemIndex
  = false
  /\ index (get r "menuChildWithImage") itemIndex = item
  /\ get r "menuChildWithImage" = JArr (menu_of r).
Proof.
  intros Hpos Hitem Htruthy. unfold AdminService.no_menu_item, menu_of in *.
  cbn [fields].
  destruct (get r "menuChildWithImage") as [| |b|q|s|l|m]; try discriminate Hitem.
  cbn [elements_of] in Hitem. cbn [index elements_of].
  destruct (Z.ltb_spec itemIndex 0) as [Hneg|_]; [lia|].
  rewrite Hitem. cbn [default id]. rewrite Htruthy. repeat split; reflexivity.
Qed.

Lemma deleteMenuChildItem_run adminId itemIndex w i r item :
  list_find (fun r => Is_true (is_active r)) (siteSettings w) = Some (i, r) ->
  0 <= itemIndex ->
  menu_of r !! Z.to_nat itemIndex = Some item ->
  truthy item = true ->
  AdminService.deleteMenuChildItem cloudinary adminId itemIndex w
  = AdminService.save_as adminId {| _id := i; isNew := false; fields := r |}
      (<["menuChildWithImage" := JArr (delete (Z.to_nat itemIndex) (menu_of r))]> r)
      (after_destroy cloudinary (item_fileId item) w).
Proof.
  intros Hfind Hpos Hitem Htruthy.
  destruct (menu_item_present i r itemIndex item Hpos Hitem Htruthy)
    as (Hno & Hindex & _).
  unfold AdminService.deleteMenuChildItem.
  rewrite findOne_run, (found_active_find _ _ _ Hfind), Hno. cbn [fields].
  rewrite Hindex, run_bind, delete_previous_run. reflexivity.
Qed.

Lemma addMenuChildItem_run adminId itemData w i r :
  list_find (fun r => Is_true (is_active r)) (siteSettings w) = Some (i, r) ->
  AdminService.addMenuChildItem adminId itemData w
  = AdminService.save_as adminId {| _id := i; isNew := false; fields := r |}
      (<["menuChildWithImage" :=
           JArr (menu_of r ++
                 [JObj {[ "title" := JStr (item_title itemData);
                          "content" := JStr (item_content itemData);
                          "price" := JNum (item_price itemData);
                          "image" := match item_image itemData with
                                     | Some image => image_of_upload image
                                     | None => image_object JNull JNull
                                     end ]}])]> r) w.
Proof.
  intros Hfind. unfold AdminService.addMenuChildItem.
  rewrite findOne_run, (found_active_find _ _ _ Hfind). cbn [fields].
  unfold menu_of.
  destruct (get r "menuChildWithImage") as [| |[|]|q|s|l|m]; cbn [truthy negb elements_of];
    try reflexivity.
  - destruct (negb (Qeq_bool q 0)); reflexivity.
  - destruct (negb (String.eqb s "")); reflexivity.
Qed.

Lemma list_find_insert_active (l : list (gmap string JsValue)) i r r' :
  list_find (fun r => Is_true (is_active r)) l = Some (i, r) ->
  is_active r' = true ->
  list_find (fun r => Is_true (is_active r)) (<[i := r']> l) = Some (i, r').
Proof.
  intros Hfind Hact. apply list_find_Some in Hfind as (Hi & _ & Hbefore).
  apply list_find_Some. split.
  - apply list_lookup_insert_eq. apply lookup_lt_Some in Hi. exact Hi.
  - split; [apply Is_true_true; exact Hact|].
    intros j y Hj Hlt. rewrite list_lookup_insert_ne in Hj by lia.
    exact (Hbefore j y Hj Hlt).
Qed.

Lemma delete_last {A} (l : list A) (x : A) : delete (length l) (l ++ [x]) = l.
Proof. induction l as [|y l IH]; [reflexivity|]. cbn. f_equal. exact IH. Qed.

(** X9. Every operation that works on the active record stops with the
    404 error [Site settings not found] when no record is active, and then
    nothing has happened: no record is written, no request goes to the
    object store, nothing is logged. *)
Theorem no_active_settings_is_not_found op w :
  active_count w = 0%nat ->
  requires_active op = true ->
  perform cloudinary config op w = (inl settings_not_found, w).
Proof.
  intros Hcount Hop. apply find_active_none_of_count in Hcount.
  assert (Hnone : found_active (siteSettings w) = None).
  { unfold found_active. rewrite Hcount. reflexivity. }
  destruct op as [a d|a n|a f|a f|a f|a n f|a|a|a|a n|a d|a n d|a n];
    try discriminate Hop;
    try (destruct f as [|f|fs]; try discriminate Hop);
    cbn [perform];
    unfold AdminService.updateBackgroundImage, AdminService.updateAboutSectionImage,
      AdminService.updateMenuMainImage, AdminService.updateMenuChildImage,
      AdminService.removeBackgroundImage, AdminService.removeAboutSectionImage,
      AdminService.removeMenuMainImage, AdminService.removeMenuChildImage,
      AdminService.addMenuChildItem, AdminService.updateMenuChildItem,
      AdminService.deleteMenuChildItem, AdminService.replace_image,
      AdminService.reset_image;
    cbn [ImageService.validateImageFile]; rewrite ?run_bind_ret;
    rewrite findOne_run, Hnone; reflexivity.
Qed.


(** X11. The image replacements delete before they validate: when the file
    is one that [uploadImage] refuses, the call throws and the active record
    is left as it was, yet the deletion of the image that the record still
    names has already been requested. *)
Theorem replace_image_refused_after_delete update field folder adminId file w i r :
  (update, field, folder)
    ∈ [ (AdminService.updateBackgroundImage cloudinary config, "backgroundImage",
         "caterine/backgrounds");
        (AdminService.updateAboutSectionImage cloudinary config,
         "aboutSectionImage", "caterine/about");
        (AdminService.updateMenuMainImage cloudinary config, "menuMainImage",
         "caterine/menu-main") ] ->
  list_find (fun r => Is_true (is_active r)) (siteSettings w) = Some (i, r) ->
  acceptable config file = false ->
  succeeded (update adminId (OneFile file) w) = false
  /\ siteSettings (update adminId (OneFile file) w).2 = siteSettings w
  /\ cloudCalls (update adminId (OneFile file) w).2
     = cloudCalls w ++ destroy_requests (field_fileId r field).
Proof.
  intros Hin Hfind Hacc.
  assert (Hrun : update adminId (OneFile file) w
                 = AdminService.replace_image cloudinary field
                     (fun f => ImageService.uploadImage cloudinary config f folder)
                     adminId (OneFile file) w).
  { repeat (apply elem_of_cons in Hin as [[= -> -> ->]|Hin]; [reflexivity|]).
    apply elem_of_nil in Hin. destruct Hin. }
  rewrite Hrun, (replace_image_run _ _ _ _ _ _ _ Hfind).
  destruct (uploadImage_try_unacceptable cloudinary config file folder
              (after_destroy cloudinary (field_fileId r field) w) Hacc)
    as (e & Htry & _).
  unfold ImageService.uploadImage. rewrite Htry.
  repeat split; reflexivity.
Qed.






End OperationProperties.

Lemma no_active_settings_is_not_found_witness :
  perform sample_cloud sample_config (RemoveMenuChildImage "admin-1" 0)
    (set_siteSettings [<["isActive" := JBool false]> sample_settings] sample_world)
  = (inl settings_not_found,
     set_siteSettings [<["isActive" := JBool false]> sample_settings] sample_world).
Proof.
  apply (no_active_settings_is_not_found sample_cloud sample_config);
    reflexivity.
Defined.


Lemma replace_image_refused_after_delete_witness :
  cloudCalls
    (AdminService.updateBackgroundImage sample_cloud sample_config "admin-1"
       (OneFile {| file_name := "a.gif"; mimetype := "image/gif"; size := 3;
                   data := Some "R0lG" |}) sample_world).2
  = [Destroy (JStr "bg-1")].
Proof.
  destruct (replace_image_refused_after_delete sample_cloud sample_config
              (AdminService.updateBackgroundImage sample_cloud sample_config)
              "backgroundImage" "caterine/backgrounds" "admin-1"
              {| file_name := "a.gif"; mimetype := "image/gif"; size := 3;
                 data := Some "R0lG" |} sample_world 0%nat sample_settings)
    as (_ & _ & H).
  - apply elem_of_cons. left. reflexivity.
  - reflexivity.
  - reflexivity.
  - exact H.
Defined.






(* ===================================================================== *)
(** ** Further properties of the admin accounts                            *)
(* ===================================================================== *)

Section AdminProperties.

Context (bcrypt_compare : string -> string -> bool)
        (signToken : string -> string)
        (Admin_create : gmap string JsValue -> Svc Admin).

Lemma getAdminById_run id w :
  AdminServiceRest.getAdminById id w
  = match list_find (fun a => admin_id a = id /\ active a <> Some false)
                    (admins w) with
    | Some (_, a) => (inr a, w)
    | None => (inl {| message := "Admin not found"; statusCode := 404 |}, w)
    end.
Proof.
  unfold AdminServiceRest.getAdminById, AdminServiceRest.Admin_findById.
  rewrite run_bind_gets.
  destruct (list_find _ (admins w)) as [[j a]|]; reflexivity.
Qed.

Lemma loginAdmin_run now credentials w :
  AdminService.loginAdmin bcrypt_compare signToken now credentials w
  = match list_find (fun a => email a = login_email credentials
                              /\ active a <> Some false) (admins w) with
    | Some (i, admin) =>
        if bcrypt_compare (login_password credentials) (password admin)
        then (inr ({| admin_id := admin_id admin; name := name admin;
                      email := email admin; password := password admin;
                      active := active admin; lastLoginAt := Some now |},
                   signToken (admin_id admin)),
              set_admins
                (<[i := {| admin_id := admin_id admin; name := name admin;
                           email := email admin; password := password admin;
                           active := active admin; lastLoginAt := Some now |}]>
                   (admins w)) w)
        else (inl {| message := "Incorrect email or password";
                     statusCode := 401 |}, w)
    | None => (inl {| message := "Incorrect email or password";
                      statusCode := 401 |}, w)
    end.
Proof.
  unfold AdminService.loginAdmin, AdminService.Admin_findOne.
  rewrite run_bind_gets.
  destruct (list_find _ (admins w)) as [[i admin]|]; [|reflexivity].
  unfold AdminService.correctPassword.
  destruct (bcrypt_compare _ _); reflexivity.
Qed.

(** X17. [getAdminById] does not see deactivated admins: when every admin
    with the given id has [active: false], the call throws 404 [Admin not
    found]; and an admin that it returns is a stored one, with that id and
    not deactivated.  The call writes nothing. *)
Theorem getAdminById_hides_deactivated id w :
  ((forall a, a ∈ admins w -> admin_id a = id -> active a = Some false) ->
   AdminServiceRest.getAdminById id w
   = (inl {| message := "Admin not found"; statusCode := 404 |}, w))
  /\ (forall a w', AdminServiceRest.getAdminById id w = (inr a, w') ->
        w' = w /\ a ∈ admins w /\ admin_id a = id /\ active a <> Some false).
Proof.
  rewrite getAdminById_run.
  destruct (list_find _ (admins w)) as [[j a]|] eqn:Hfind.
  - apply list_find_Some in Hfind as (Hj & [Hid Hact] & _).
    apply list_elem_of_lookup_2 in Hj. split.
    + intros Hall. destruct Hact. exact (Hall a Hj Hid).
    + intros a' w' [= <- <-]. repeat split; assumption.
  - split; [reflexivity|]. intros a w' H. discriminate H.
Qed.

Lemma getAdminById_hides_deactivated_witness :
  AdminServiceRest.getAdminById "admin-2" sample_world
  = (inl {| message := "Admin not found"; statusCode := 404 |}, sample_world).
Proof.
  apply (getAdminById_hides_deactivated "admin-2" sample_world).
  intros a Hin Hid.
  apply elem_of_cons in Hin as [->|Hin]; [discriminate Hid|].
  apply elem_of_cons in Hin as [->|Hin]; [reflexivity|].
  apply elem_of_nil in Hin. destruct Hin.
Defined.

(** X18. [createAdmin] refuses an email that an admin who is not
    deactivated already holds: it throws 400 before [Admin.create] is
    reached, so nothing is written, whatever the model would do. *)
Theorem createAdmin_rejects_taken_email name_ email_ password_ w j a :
  admins w !! j = Some a ->
  email a = email_ ->
  active a <> Some false ->
  AdminServiceRest.createAdmin signToken Admin_create name_ email_ password_ w
  = (inl {| message := "Admin with this email already exists";
            statusCode := 400 |}, w).
Proof.
  intros Hj Hmail Hact.
  unfold AdminServiceRest.createAdmin, AdminService.Admin_findOne.
  rewrite run_bind_gets.
  destruct (list_find (fun a => email a = email_ /\ active a <> Some false)
              (admins w)) as [[i x]|] eqn:Hfind; [reflexivity|].
  exfalso. apply list_find_None in Hfind.
  apply list_elem_of_lookup_2 in Hj.
  rewrite Forall_forall in Hfind. apply (Hfind a Hj). split; assumption.
Qed.

(** X19. Every failure of [loginAdmin] is the same failure: the error is
    401 [Incorrect email or password], whether the email is unknown, the
    admin is deactivated or the password is wrong, and nothing is written. *)
Theorem loginAdmin_failure_is_uniform now credentials w e w' :
  AdminService.loginAdmin bcrypt_compare signToken now credentials w
  = (inl e, w') ->
  e = {| message := "Incorrect email or password"; statusCode := 401 |}
  /\ w' = w.
Proof.
  rewrite loginAdmin_run.
  destruct (list_find _ (admins w)) as [[i admin]|];
    [destruct (bcrypt_compare _ _)|];
    intros [= <- <-]; split; reflexivity.
Qed.


(** X21. The token of a login leads back to the admin: when the ids of the
    stored admins differ, [getAdminById] on the id of the admin that
    [loginAdmin] returned gives that admin, with the new [lastLoginAt]. *)
Theorem login_then_getAdminById now credentials w admin token w' :
  NoDup (admin_id <$> admins w) ->
  AdminService.loginAdmin bcrypt_compare signToken now credentials w
  = (inr (admin, token), w') ->
  AdminServiceRest.getAdminById (admin_id admin) w' = (inr admin, w')
  /\ lastLoginAt admin = Some now.
Proof.
  intros Hnd Hrun. rewrite loginAdmin_run in Hrun.
  destruct (list_find _ (admins w)) as [[i stored]|] eqn:Hfind;
    [|discriminate].
  destruct (bcrypt_compare _ _) eqn:Hpw; [|discriminate].
  injection Hrun as <- <- <-. split; [|reflexivity].
  apply list_find_Some in Hfind as (Hi & [Hmail Hact] & _).
  rewrite getAdminById_run. cbn [admins set_admins admin_id].
  match goal with
  | |- context [list_find ?P ?l] =>
      assert (Hfind' : list_find P l
                       = Some (i, {| admin_id := admin_id stored;
                                     name := name stored; email := email stored;
                                     password := password stored;
                                     active := active stored;
                                     lastLoginAt := Some now |}))
  end.
  { apply list_find_Some. split.
    - apply list_lookup_insert_eq. apply lookup_lt_Some in Hi. exact Hi.
    - split; [split; [reflexivity|exact Hact]|].
      intros j y Hj Hlt [Hid _].
      rewrite list_lookup_insert_ne in Hj by lia.
      assert (Hji : j = i); [|lia].
      apply (NoDup_lookup _ _ _ (admin_id stored) Hnd);
        rewrite list_lookup_fmap; [rewrite Hj|rewrite Hi]; cbn; congruence. }
  rewrite Hfind'. reflexivity.
Qed.

(** X22. The guard of [createInitialAdmin] looks for an admin whose id is
    the text [any].  As long as no admin has that id, the guard never
    fires: the handler fails exactly when [createAdmin] fails, with the
    same error, and writes what [createAdmin] writes, however many admins
    exist already. *)
Theorem createInitialAdmin_guard_never_fires name_ email_ password_ w :
  (forall a, a ∈ admins w -> admin_id a <> "any") ->
  (AdminControllerRest.createInitialAdmin signToken Admin_create
     name_ email_ password_ w).2
  = (AdminServiceRest.createAdmin signToken Admin_create
       name_ email_ password_ w).2
  /\ succeeded (AdminControllerRest.createInitialAdmin signToken Admin_create
                  name_ email_ password_ w)
     = succeeded (AdminServiceRest.createAdmin signToken Admin_create
                    name_ email_ password_ w)
  /\ forall e,
       (AdminControllerRest.createInitialAdmin signToken Admin_create
          name_ email_ password_ w).1 = inl e ->
       (AdminServiceRest.createAdmin signToken Admin_create
          name_ email_ password_ w).1 = inl e.
Proof.
  intros Hany.
  assert (Hnone : AdminServiceRest.getAdminById "any" w
                  = (inl {| message := "Admin not found"; statusCode := 404 |}, w)).
  { rewrite getAdminById_run.
    destruct (list_find _ (admins w)) as [[j a]|] eqn:Hfind; [|reflexivity].
    apply list_find_Some in Hfind as (Hj & [Hid _] & _).
    apply list_elem_of_lookup_2 in Hj. destruct (Hany a Hj Hid). }
  unfold AdminControllerRest.createInitialAdmin.
  rewrite run_bind. unfold AdminControllerRest.catch_null. rewrite Hnone.
  rewrite run_bind. unfold succeeded.
  destruct (AdminServiceRest.createAdmin signToken Admin_create
              name_ email_ password_ w) as [[e|[admin token]] w1];
    repeat split; try reflexivity.
  - intros e' [= <-]. reflexivity.
  - intros e' H. discriminate H.
Qed.

End AdminProperties.

Lemma createAdmin_rejects_taken_email_witness :
  AdminServiceRest.createAdmin sample_sign sample_Admin_create
    "Second" "root@example.com" "Secret123" sample_world
  = (inl {| message := "Admin with this email already exists";
            statusCode := 400 |}, sample_world).
Proof.
  apply (createAdmin_rejects_taken_email sample_sign sample_Admin_create
           "Second" "root@example.com" "Secret123" sample_world 0%nat
           (sample_admin "admin-1" "root@example.com" true));
    [reflexivity|reflexivity|discriminate].
Defined.

Lemma loginAdmin_failure_is_uniform_witness :
  AdminService.loginAdmin sample_compare sample_sign 1700000000
    {| login_email := "root@example.com"; login_password := "wrong" |}
    sample_world
  = (inl {| message := "Incorrect email or password"; statusCode := 401 |},
     sample_world).
Proof.
  destruct (loginAdmin_failure_is_uniform sample_compare sample_sign 1700000000
              {| login_email := "root@example.com"; login_password := "wrong" |}
              sample_world
              {| message := "Incorrect email or password"; statusCode := 401 |}
              sample_world ltac:(reflexivity)) as [_ _].
  reflexivity.
Defined.


Lemma login_then_getAdminById_witness :
  exists admin w',
    AdminServiceRest.getAdminById "admin-1" w' = (inr admin, w')
    /\ lastLoginAt admin = Some 1700000000.
Proof.
  exists {| admin_id := "admin-1"; name := "Root";
            email := "root@example.com"; password := "hash:secret";
            active := Some true; lastLoginAt := Some 1700000000 |},
    (set_admins
       [ {| admin_id := "admin-1"; name := "Root";
            email := "root@example.com"; password := "hash:secret";
            active := Some true; lastLoginAt := Some 1700000000 |};
         sample_admin "admin-2" "gone@example.com" false ]
       sample_world).
  apply (login_then_getAdminById sample_compare sample_sign 1700000000
           {| login_email := "root@example.com"; login_password := "secret" |}
           sample_world
           {| admin_id := "admin-1"; name := "Root";
              email := "root@example.com"; password := "hash:secret";
              active := Some true; lastLoginAt := Some 1700000000 |}
           (sample_sign "admin-1")).
  - apply (bool_decide_unpack _). reflexivity.
  - reflexivity.
Defined.

Lemma createInitialAdmin_guard_never_fires_witness :
  succeeded (AdminControllerRest.createInitialAdmin sample_sign
               sample_Admin_create "Second" "second@example.com" "Secret123"
               sample_world)
  = true.
Proof.
  destruct (createInitialAdmin_guard_never_fires sample_sign sample_Admin_create
              "Second" "second@example.com" "Secret123" sample_world)
    as (_ & Hs & _).
  - intros a Hin.
    apply elem_of_cons in Hin as [->|Hin]; [discriminate|].
    apply elem_of_cons in Hin as [->|Hin]; [discriminate|].
    apply elem_of_nil in Hin. destruct Hin.
  - rewrite Hs. reflexivity.
Defined.

(* ===================================================================== *)
(** ** Further properties: current settings, history, section handlers     *)
(* ===================================================================== *)

Section CurrentAndHistory.
Import SiteSettings.

Context (Admin_create : gmap string JsValue -> Svc Admin)
        (sort_updatedAt_desc :
           list (nat * gmap string JsValue) -> list (nat * gmap string JsValue)).

(** X23. With an active record, [getCurrentSiteSettings] only reads: it
    returns the first active record of the collection, unchanged but for
    the populated [updatedBy], and writes nothing. *)
Theorem getCurrentSiteSettings_reads_active w i r :
  list_find (fun r => Is_true (is_active r)) (siteSettings w) = Some (i, r) ->
  exists d,
    AdminServiceRest.getCurrentSiteSettings Admin_create w = (inr d, w)
    /\ _id d = i
    /\ forall k, k <> "updatedBy" -> fields d !! k = r !! k.
Proof.
  intros Hfind. unfold AdminServiceRest.getCurrentSiteSettings.
  rewrite findOne_run, (found_active_find _ _ _ Hfind).
  destruct (populate_run {| _id := i; isNew := false; fields := r |} w)
    as (d & Hrun & Hid & Hfields).
  exists d. split; [exact Hrun|]. split; [exact Hid|exact Hfields].
Qed.

(** X24. With no active record and an admin who is not deactivated,
    [getCurrentSiteSettings] creates the default settings once: they are
    appended as the one active record, signed by the first such admin, no
    admin is created, and a second call returns the same document and
    writes nothing. *)
Theorem getCurrentSiteSettings_creates_defaults_once w j a :
  active_count w = 0%nat ->
  list_find (fun a => active a <> Some false) (admins w) = Some (j, a) ->
  exists d w1,
    AdminServiceRest.getCurrentSiteSettings Admin_create w = (inr d, w1)
    /\ siteSettings w1
       = (insert "isActive" (JBool false) <$> siteSettings w)
         ++ [<["isActive" := JBool true]>
               (AdminServiceRest.default_settings (admin_id a))]
    /\ admins w1 = admins w
    /\ active_count w1 = 1%nat
    /\ _id d = length (siteSettings w)
    /\ AdminServiceRest.getCurrentSiteSettings Admin_create w1 = (inr d, w1).
Proof.
  intros Hcount Hadmin.
  pose proof (find_active_none_of_count _ Hcount) as Hnone.
  set (new := <["isActive" := JBool true]>
                (AdminServiceRest.default_settings (admin_id a))).
  assert (Hwd : with_defaults (AdminServiceRest.default_settings (admin_id a))
                = new) by reflexivity.
  assert (Hact : is_active new = true) by reflexivity.
  set (w1 := set_siteSettings
               ((insert "isActive" (JBool false) <$> siteSettings w) ++ [new]) w).
  destruct (populate_run {| _id := length (siteSettings w); isNew := false;
                            fields := new |} w1)
    as (d & Hrun & Hid & _).
  exists d, w1.
  assert (Hfirst : AdminServiceRest.getCurrentSiteSettings Admin_create w
                   = (inr d, w1)).
  { unfold AdminServiceRest.getCurrentSiteSettings.
    rewrite findOne_run. unfold found_active. rewrite Hnone.
    cbn [fmap option_fmap option_map].
    unfold AdminServiceRest.Admin_findOne_any.
    rewrite run_bind_gets, Hadmin. cbn [fmap option_fmap option_map snd].
    rewrite run_bind_ret, run_bind, create_run, Hwd.
    assert (Hget : truthy (get new "isActive") = true) by reflexivity.
    rewrite Hget. exact Hrun. }
  split; [exact Hfirst|]. split; [reflexivity|]. split; [reflexivity|].
  split; [apply count_active_after_sweep; exact Hact|].
  split; [exact Hid|].
  unfold AdminServiceRest.getCurrentSiteSettings.
  rewrite findOne_run. cbn [w1 siteSettings set_siteSettings].
  rewrite (found_active_after_sweep _ _ Hact). exact Hrun.
Qed.

Lemma mapM_populate_run (l : list Document) w :
  exists l',
    mapM populate_updatedBy l w = (inr l', w)
    /\ Forall2 (fun d' d => _id d' = _id d
                            /\ forall k, k <> "updatedBy" ->
                                 fields d' !! k = fields d !! k) l' l.
Proof.
  induction l as [|d l (l' & IHrun & IH)].
  - exists []. split; [reflexivity|constructor].
  - destruct (populate_run d w) as (d' & Hrun & Hid & Hfields).
    exists (d' :: l'). cbn [mapM]. rewrite run_bind, Hrun.
    fold (mapM populate_updatedBy l). rewrite run_bind, IHrun.
    split; [reflexivity|]. constructor; [split; assumption|exact IH].
Qed.

Lemma has_next_page_iff (total page limit : Z) :
  1 <= limit ->
  (page <? Helpers.Math_ceil (inject_Z total / inject_Z limit)) = true
  <-> page * limit < total.
Proof.
  intros Hl. rewrite Z.ltb_lt.
  pose proof (Math_ceil_bounds total limit ltac:(lia)) as [Hlo Hhi].
  split; intros H; nia.
Qed.

(** X25. A page of the history, for [page >= 1] and [limit >= 1] and a sort
    that keeps the number of documents: the call writes nothing; the page
    holds the documents at positions [(page-1)*limit] to [page*limit - 1]
    of the sorted collection, as many as there are, each unchanged but for
    the populated [updatedBy]; [hasNextPage] is true exactly when documents
    remain after the page, and the counts are those of
    [getPaginationMeta(total, page, limit)]. *)
Theorem getSiteSettingsHistory_page page limit w :
  1 <= page -> 1 <= limit ->
  (forall l, length (sort_updatedAt_desc l) = length l) ->
  exists h,
    AdminServiceRest.getSiteSettingsHistory sort_updatedAt_desc page limit w
    = (inr h, w)
    /\ history_total h = Z.of_nat (length (siteSettings w))
    /\ Forall2 (fun d' d => _id d' = _id d
                            /\ forall k, k <> "updatedBy" ->
                                 fields d' !! k = fields d !! k)
         (history h)
         (take (Z.to_nat limit)
            (drop (Z.to_nat ((page - 1) * limit))
               (AdminServiceRest.find_sorted sort_updatedAt_desc w)))
    /\ Z.of_nat (length (history h))
       = Z.max 0 (Z.min limit (history_total h - (page - 1) * limit))
    /\ (history_hasNextPage h = true <-> page * limit < history_total h)
    /\ history_totalPages h
       = Helpers.totalPages (Helpers.getPaginationMeta (history_total h) page limit)
    /\ history_hasNextPage h
       = Helpers.hasNextPage (Helpers.getPaginationMeta (history_total h) page limit)
    /\ history_hasPrevPage h
       = Helpers.hasPrevPage (Helpers.getPaginationMeta (history_total h) page limit).
Proof.
  intros Hp Hl Hsort.
  unfold AdminServiceRest.getSiteSettingsHistory.
  rewrite run_bind_gets, run_bind.
  destruct (mapM_populate_run
              (take (Z.to_nat limit)
                 (drop (Z.to_nat ((page - 1) * limit))
                    (AdminServiceRest.find_sorted sort_updatedAt_desc w))) w)
    as (l' & Hrun & Hall).
  rewrite Hrun, run_bind_gets. eexists. split; [reflexivity|].
  cbn [history history_total history_hasNextPage history_totalPages
       history_hasPrevPage].
  split; [reflexivity|]. split; [exact Hall|]. split.
  { rewrite (Forall2_length _ _ _ Hall), length_take, length_drop.
    unfold AdminServiceRest.find_sorted.
    rewrite length_fmap, Hsort, length_imap.
    assert (Hskip : 0 <= (page - 1) * limit) by nia.
    revert Hskip. generalize ((page - 1) * limit). intros skip Hskip. lia. }
  split; [apply has_next_page_iff; exact Hl|].
  repeat split; reflexivity.
Qed.

Lemma run_bind_ret_state {A B} (m : Svc A) (g : A -> B) w :
  ((m ≫= fun x => mret (g x)) w).2 = (m w).2
  /\ succeeded ((m ≫= fun x => mret (g x)) w) = succeeded (m w).
Proof.
  rewrite run_bind. unfold succeeded.
  destruct (m w) as [[e|x] w']; split; reflexivity.
Qed.

Lemma literal_when_truthy body (keys : list string) k :
  NoDup keys ->
  literal (AdminControllerRest.when_truthy body <$> keys) !! k
  = if bool_decide (k ∈ keys) && truthy (get body k)
    then Some (get body k) else None.
Proof.
  intros Hnd.
  assert (Hkeys : (AdminControllerRest.when_truthy body <$> keys).*1 = keys).
  { rewrite <- list_fmap_compose. apply list_fmap_id. }
  case_bool_decide as Hin; cbn [andb].
  - apply (literal_lookup_in _ k
             (if truthy (get body k) then Some (get body k) else None)).
    + rewrite Hkeys. exact Hnd.
    + apply list_elem_of_fmap. exists k. split; [reflexivity|exact Hin].
  - apply literal_lookup_notin. rewrite Hkeys. exact Hin.
Qed.

End CurrentAndHistory.


Lemma getCurrentSiteSettings_reads_active_witness :
  exists d,
    AdminServiceRest.getCurrentSiteSettings sample_Admin_create sample_world
    = (inr d, sample_world)
    /\ SiteSettings._id d = 0%nat
    /\ SiteSettings.fields d !! "heroSectionText" = Some sample_hero.
Proof.
  destruct (getCurrentSiteSettings_reads_active sample_Admin_create sample_world
              0%nat sample_settings ltac:(reflexivity))
    as (d & Hrun & Hid & Hfields).
  exists d. split; [exact Hrun|]. split; [exact Hid|].
  rewrite Hfields by discriminate. reflexivity.
Defined.

Lemma getCurrentSiteSettings_creates_defaults_once_witness :
  exists d w1,
    AdminServiceRest.getCurrentSiteSettings sample_Admin_create
      (set_siteSettings [] sample_world) = (inr d, w1)
    /\ active_count w1 = 1%nat
    /\ AdminServiceRest.getCurrentSiteSettings sample_Admin_create w1
       = (inr d, w1).
Proof.
  destruct (getCurrentSiteSettings_creates_defaults_once sample_Admin_create
              (set_siteSettings [] sample_world) 0%nat
              (sample_admin "admin-1" "root@example.com" true)
              ltac:(reflexivity) ltac:(reflexivity))
    as (d & w1 & Hrun & _ & _ & Hcount & _ & Hagain).
  exists d, w1. split; [exact Hrun|]. split; [exact Hcount|exact Hagain].
Defined.

Lemma getSiteSettingsHistory_page_witness :
  exists h,
    AdminServiceRest.getSiteSettingsHistory reverse 2 1
      (set_siteSettings [sample_settings; sample_settings; sample_settings]
         sample_world)
    = (inr h, set_siteSettings [sample_settings; sample_settings; sample_settings]
                sample_world)
    /\ Z.of_nat (length (history h)) = 1
    /\ history_hasNextPage h = true.
Proof.
  destruct (getSiteSettingsHistory_page reverse 2 1
              (set_siteSettings [sample_settings; sample_settings; sample_settings]
                 sample_world)
              ltac:(lia) ltac:(lia) ltac:(intros l; apply length_reverse))
    as (h & Hrun & Htotal & _ & Hlen & Hnext & _).
  exists h. split; [exact Hrun|].
  rewrite Htotal in Hlen, Hnext. split; [exact Hlen|].
  apply Hnext. reflexivity.
Defined.


(* ===================================================================== *)
(** ** Further properties of the text helpers                              *)
(* ===================================================================== *)

Section TextHelperProperties.
Import TextHelpers.

Lemma strip_tags_held_open h l :
  existsb (is_char ">"%char) l = false ->
  strip_tags (Some h) l = h ++ l.
Proof.
  revert h. induction l as [|c l IH]; intros h Hno.
  - cbn. rewrite app_nil_r. reflexivity.
  - cbn in Hno. apply orb_false_iff in Hno as [Hc Hno].
    cbn [strip_tags]. rewrite Hc, (IH _ Hno), <- app_assoc. reflexivity.
Qed.

Lemma strip_tags_held_closed h l :
  existsb (is_char ">"%char) l = true ->
  exists t rest,
    l = t ++ rest /\ (length rest < length l)%nat
    /\ strip_tags (Some h) l = strip_tags None rest.
Proof.
  revert h. induction l as [|c l IH]; intros h Hyes; [discriminate Hyes|].
  cbn [strip_tags]. destruct (is_char ">"%char c) eqn:Hc.
  - exists [c], l. split; [reflexivity|]. split; [cbn; lia|reflexivity].
  - cbn in Hyes. rewrite Hc in Hyes. cbn in Hyes.
    destruct (IH (h ++ [c]) Hyes) as (t & rest & -> & Hlen & Hrun).
    exists (c :: t), rest. split; [reflexivity|]. split; [cbn in *; lia|exact Hrun].
Qed.

Lemma has_tag_no_close l :
  existsb (is_char ">"%char) l = false -> has_tag l = false.
Proof.
  induction l as [|c l IH]; intros Hno; [reflexivity|].
  cbn in Hno. apply orb_false_iff in Hno as [Hc Hno].
  cbn [has_tag]. rewrite Hno, (IH Hno), andb_false_r. reflexivity.
Qed.

Lemma strip_tags_no_tag_left n l :
  (length l <= n)%nat -> has_tag (strip_tags None l) = false.
Proof.
  revert l. induction n as [|n IH]; intros [|c l] Hlen; try reflexivity;
    cbn in Hlen; [lia|].
  cbn [strip_tags]. destruct (is_char "<"%char c) eqn:Hc.
  - destruct (existsb (is_char ">"%char) l) eqn:Hclose.
    + destruct (strip_tags_held_closed [c] l Hclose) as (t & rest & _ & Hl & ->).
      apply IH. lia.
    + rewrite (strip_tags_held_open _ _ Hclose). cbn [app has_tag].
      rewrite Hclose, andb_false_r. apply has_tag_no_close. exact Hclose.
  - cbn [has_tag]. rewrite Hc. apply IH. lia.
Qed.

Lemma strip_tags_fixes_tagless l :
  has_tag l = false -> strip_tags None l = l.
Proof.
  induction l as [|c l IH]; intros Hno; [reflexivity|].
  cbn [has_tag] in Hno. apply orb_false_iff in Hno as [Hc Hno].
  cbn [strip_tags]. destruct (is_char "<"%char c).
  - cbn in Hc. apply (strip_tags_held_open [c] l Hc).
  - rewrite (IH Hno). reflexivity.
Qed.

Lemma strip_tags_sublist held l :
  sublist (strip_tags held l) (default [] held ++ l).
Proof.
  revert held. induction l as [|c l IH]; intros held.
  - cbn. rewrite app_nil_r. reflexivity.
  - cbn [strip_tags]. destruct held as [h|]; cbn [default].
    + destruct (is_char ">"%char c).
      * etrans; [apply (IH None)|]. cbn. apply sublist_inserts_l. apply sublist_cons. reflexivity.
      * etrans; [apply (IH (Some (h ++ [c])))|]. cbn. rewrite <- app_assoc. reflexivity.
    + destruct (is_char "<"%char c).
      * apply (IH (Some [c])).
      * cbn. apply sublist_skip. apply (IH None).
Qed.

(** X27. [sanitizeInput] leaves no tag behind: in its result no [<] is
    followed by a [>].  The result is the input with code units removed,
    a second pass changes nothing, and an input without a tag comes back
    as it is. *)
Theorem sanitizeInput_removes_tags input :
  has_tag (String.list_ascii_of_string (sanitizeInput input)) = false
  /\ sanitizeInput (sanitizeInput input) = sanitizeInput input
  /\ sublist (String.list_ascii_of_string (sanitizeInput input))
             (String.list_ascii_of_string input)
  /\ (has_tag (String.list_ascii_of_string input) = false ->
      sanitizeInput input = input).
Proof.
  unfold sanitizeInput. rewrite !String.list_ascii_of_string_of_list_ascii.
  split; [apply (strip_tags_no_tag_left _ _ (Nat.le_refl _))|].
  split.
  { rewrite strip_tags_fixes_tagless; [reflexivity|].
    apply (strip_tags_no_tag_left _ _ (Nat.le_refl _)). }
  split; [apply (strip_tags_sublist None)|].
  intros H. rewrite (strip_tags_fixes_tagless _ H).
  apply String.string_of_list_ascii_of_string.
Qed.

Lemma is_hyphen_eq c : is_hyphen c = true -> c = "-"%char.
Proof.
  unfold is_hyphen, code. intros H. apply Nat.eqb_eq in H.
  rewrite <- (ascii_nat_embedding c), H. reflexivity.
Qed.

Lemma slug_char_cases c :
  slug_char c = true ->
  toLowerCase_char c = c /\ slug_source_char c = true /\ is_space c = false.
Proof.
  unfold slug_char, toLowerCase_char, slug_source_char, is_space, is_lower,
    is_digit, is_hyphen, in_range.
  generalize (code c). intros n H.
  assert (Hup : (65 <=? n)%nat && (n <=? 90)%nat
                || (192 <=? n)%nat && (n <=? 214)%nat
                || (216 <=? n)%nat && (n <=? 222)%nat = false).
  { rewrite ?orb_true_iff, ?andb_true_iff, ?Nat.leb_le, ?Nat.eqb_eq in H.
    rewrite ?orb_false_iff, ?andb_false_iff, ?Nat.leb_gt. lia. }
  rewrite Hup. split; [reflexivity|].
  rewrite ?orb_true_iff, ?andb_true_iff, ?Nat.leb_le, ?Nat.eqb_eq in H.
  rewrite ?orb_true_iff, ?andb_true_iff, ?orb_false_iff, ?andb_false_iff,
    ?Nat.leb_le, ?Nat.leb_gt, ?Nat.eqb_eq, ?Nat.eqb_neq. lia.
Qed.

Lemma slug_source_char_cases c :
  slug_source_char c = true -> is_space c = false -> slug_char c = true.
Proof.
  unfold slug_char, slug_source_char, is_space, is_lower,
    is_digit, is_hyphen, in_range.
  generalize (code c). intros n H1 H2.
  rewrite ?orb_true_iff, ?andb_true_iff, ?orb_false_iff, ?andb_false_iff,
    ?Nat.leb_le, ?Nat.leb_gt, ?Nat.eqb_eq, ?Nat.eqb_neq in *. lia.
Qed.

Lemma replace_runs_forallb (P Q R : ascii -> bool) r l :
  (forall c, Q c = true -> P c = false -> R c = true) ->
  R r = true ->
  forallb Q l = true -> forallb R (replace_runs P r l) = true.
Proof.
  intros HQR Hr. induction l as [|c l IH]; intros HQ; [reflexivity|].
  cbn in HQ. apply andb_true_iff in HQ as [Hc HQ]. specialize (IH HQ).
  cbn [replace_runs]. destruct (P c) eqn:HP.
  - destruct l as [|c' l']; [cbn; rewrite Hr; reflexivity|].
    destruct (P c'); [exact IH|]. cbn [forallb]. rewrite Hr. exact IH.
  - cbn [forallb]. rewrite (HQR c Hc HP). exact IH.
Qed.

Lemma replace_runs_head P r c l :
  P c = false -> replace_runs P r (c :: l) = c :: replace_runs P r l.
Proof. intros H. cbn [replace_runs]. rewrite H. reflexivity. Qed.

Lemma replace_runs_no_double r l :
  is_hyphen r = true ->
  no_double_hyphen (replace_runs is_hyphen r l) = true.
Proof.
  intros Hr. induction l as [|c l IH]; [reflexivity|].
  cbn [replace_runs]. destruct (is_hyphen c) eqn:Hc.
  - destruct l as [|c' l']; [reflexivity|].
    destruct (is_hyphen c') eqn:Hc'; [exact IH|].
    rewrite (replace_runs_head _ _ _ _ Hc') in *.
    cbn [no_double_hyphen] in *. rewrite Hc' in IH |- *.
    rewrite andb_false_r. exact IH.
  - cbn [no_double_hyphen]. rewrite Hc. cbn [andb negb].
    destruct (replace_runs is_hyphen r l); exact IH.
Qed.

Lemma replace_runs_none P r l :
  forallb (fun c => negb (P c)) l = true -> replace_runs P r l = l.
Proof.
  induction l as [|c l IH]; intros H; [reflexivity|].
  cbn in H. apply andb_true_iff in H as [Hc H]. apply negb_true_iff in Hc.
  rewrite (replace_runs_head _ _ _ _ Hc), (IH H). reflexivity.
Qed.

Lemma replace_runs_single l :
  no_double_hyphen l = true -> replace_runs is_hyphen "-"%char l = l.
Proof.
  induction l as [|c l IH]; intros H; [reflexivity|].
  cbn [no_double_hyphen] in H. apply andb_true_iff in H as [Hc H].
  specialize (IH H). cbn [replace_runs]. destruct (is_hyphen c) eqn:Hh.
  - apply is_hyphen_eq in Hh as ->. destruct l as [|c' l']; [reflexivity|].
    cbn in Hc. apply negb_true_iff in Hc. rewrite Hc, IH. reflexivity.
  - rewrite IH. reflexivity.
Qed.

Lemma drop_leading_suffix P l : suffix (drop_leading P l) l.
Proof.
  induction l as [|c l IH]; [reflexivity|].
  cbn. destruct (P c); [|reflexivity]. apply suffix_cons_r. exact IH.
Qed.

Lemma drop_leading_head P l :
  match drop_leading P l with
  | c :: _ => P c = false
  | [] => True
  end.
Proof.
  induction l as [|c l IH]; [exact I|].
  cbn. destruct (P c) eqn:Hc; [exact IH|exact Hc].
Qed.

Lemma forallb_suffix (Q : ascii -> bool) l1 l2 :
  suffix l1 l2 -> forallb Q l2 = true -> forallb Q l1 = true.
Proof.
  intros [k ->]. rewrite forallb_app. intros H.
  apply andb_true_iff in H as [_ H]. exact H.
Qed.

Lemma no_double_hyphen_suffix l1 l2 :
  suffix l1 l2 -> no_double_hyphen l2 = true -> no_double_hyphen l1 = true.
Proof.
  intros [k ->]. induction k as [|c k IH]; [exact id|].
  intros H. apply IH. cbn [app no_double_hyphen] in H.
  apply andb_true_iff in H as [_ H]. exact H.
Qed.

Lemma drop_trailing_snoc P l :
  drop_trailing P l = []
  \/ exists c k, drop_trailing P l = k ++ [c] /\ P c = false.
Proof.
  induction l as [|c l IH]; [left; reflexivity|].
  cbn [drop_trailing]. destruct IH as [->|(c' & k & -> & Hc')].
  - destruct (P c) eqn:Hc; [left; reflexivity|].
    right. exists c, []. split; [reflexivity|exact Hc].
  - right. exists c', (c :: k). split; [|exact Hc'].
    destruct k; reflexivity.
Qed.

Lemma drop_trailing_prefix P l : prefix (drop_trailing P l) l.
Proof.
  induction l as [|c l IH]; [reflexivity|].
  cbn [drop_trailing]. destruct (drop_trailing P l) as [|c' k] eqn:Hd.
  - destruct (P c); [apply prefix_nil|].
    apply prefix_cons. apply prefix_nil.
  - apply prefix_cons. exact IH.
Qed.

Lemma forallb_prefix (Q : ascii -> bool) l1 l2 :
  prefix l1 l2 -> forallb Q l2 = true -> forallb Q l1 = true.
Proof.
  intros [k ->]. rewrite forallb_app. intros H.
  apply andb_true_iff in H as [H _]. exact H.
Qed.

Lemma no_double_hyphen_prefix l1 l2 :
  prefix l1 l2 -> no_double_hyphen l2 = true -> no_double_hyphen l1 = true.
Proof.
  intros [k ->]. induction l1 as [|c l1 IH]; [reflexivity|].
  cbn [app no_double_hyphen]. intros H.
  apply andb_true_iff in H as [Hc H]. rewrite (IH H), andb_true_r.
  destruct l1 as [|c' l1]; [reflexivity|exact Hc].
Qed.

Lemma drop_leading_fixes P l :
  match l with c :: _ => P c = false | [] => True end ->
  drop_leading P l = l.
Proof. destruct l as [|c l]; [reflexivity|]. cbn. intros ->. reflexivity. Qed.

Lemma drop_trailing_fixes P l :
  match last l with Some c => P c = false | None => True end ->
  drop_trailing P l = l.
Proof.
  induction l as [|c l IH]; [reflexivity|].
  intros H. cbn [drop_trailing]. destruct l as [|c' l'].
  - cbn in *. rewrite H. reflexivity.
  - rewrite IH by exact H. reflexivity.
Qed.

Lemma generateSlug_units_is_slug l : is_slug (generateSlug_units l) = true.
Proof.
  unfold generateSlug_units.
  set (l2 := List.filter slug_source_char (toLowerCase_char <$> l)).
  set (l3 := replace_runs is_space "-"%char l2).
  set (l4 := replace_runs is_hyphen "-"%char l3).
  assert (H2 : forallb slug_source_char l2 = true).
  { apply forallb_forall. intros c Hc. apply filter_In in Hc as [_ Hc]. exact Hc. }
  assert (H3 : forallb slug_char l3 = true).
  { apply (replace_runs_forallb is_space slug_source_char slug_char);
      [apply slug_source_char_cases|reflexivity|exact H2]. }
  assert (H4 : forallb slug_char l4 = true).
  { apply (replace_runs_forallb is_hyphen slug_char slug_char);
      [intros c Hc _; exact Hc|reflexivity|exact H3]. }
  assert (N4 : no_double_hyphen l4 = true)
    by (apply replace_runs_no_double; reflexivity).
  pose proof (drop_leading_suffix is_hyphen l4) as Hsuf.
  pose proof (drop_leading_head is_hyphen l4) as Hhead.
  pose proof (drop_trailing_prefix is_hyphen (drop_leading is_hyphen l4)) as Hpre.
  pose proof (forallb_suffix _ _ _ Hsuf H4) as H5.
  pose proof (no_double_hyphen_suffix _ _ Hsuf N4) as N5.
  pose proof (forallb_prefix _ _ _ Hpre H5) as H6.
  pose proof (no_double_hyphen_prefix _ _ Hpre N5) as N6.
  unfold is_slug. rewrite H6, N6. cbn [andb].
  apply andb_true_iff. split.
  - destruct Hpre as [k Hk].
    destruct (drop_trailing is_hyphen (drop_leading is_hyphen l4)) as [|c t];
      [reflexivity|].
    rewrite Hk in Hhead. cbn in Hhead. rewrite Hhead. reflexivity.
  - destruct (drop_trailing_snoc is_hyphen (drop_leading is_hyphen l4))
      as [->|(c & k & -> & Hc)]; [reflexivity|].
    rewrite last_snoc, Hc. reflexivity.
Qed.

Lemma generateSlug_units_fixes_slug l :
  is_slug l = true -> generateSlug_units l = l.
Proof.
  unfold is_slug. rewrite !andb_true_iff. intros [[[Hall Hnd] Hhead] Hlast].
  assert (Hc : forall c, In c l -> slug_char c = true)
    by (apply forallb_forall; exact Hall).
  unfold generateSlug_units.
  assert (H1 : toLowerCase_char <$> l = l).
  { clear -Hc. induction l as [|c l IH]; [reflexivity|]. cbn.
    rewrite IH by (intros x Hx; apply Hc; right; exact Hx).
    destruct (slug_char_cases c (Hc c (or_introl eq_refl))) as (-> & _).
    reflexivity. }
  rewrite H1.
  assert (H2 : List.filter slug_source_char l = l).
  { clear -Hc. induction l as [|c l IH]; [reflexivity|]. cbn.
    rewrite IH by (intros x Hx; apply Hc; right; exact Hx).
    destruct (slug_char_cases c (Hc c (or_introl eq_refl))) as (_ & -> & _).
    reflexivity. }
  rewrite H2.
  rewrite (replace_runs_none is_space).
  2:{ apply forallb_forall. intros c Hin.
      destruct (slug_char_cases c (Hc c Hin)) as (_ & _ & ->). reflexivity. }
  rewrite (replace_runs_single _ Hnd).
  rewrite drop_leading_fixes.
  2:{ destruct l; [exact I|]. apply negb_true_iff. exact Hhead. }
  apply drop_trailing_fixes.
  destruct (last l); [|exact I]. apply negb_true_iff. exact Hlast.
Qed.

(** X28. [generateSlug] always returns a slug: code units in [[a-z0-9-]],
    no hyphen at either end, no two hyphens in a row.  A slug is returned
    as it is, so that a second pass changes nothing. *)
Theorem generateSlug_returns_slug str :
  is_slug (String.list_ascii_of_string (generateSlug str)) = true
  /\ generateSlug (generateSlug str) = generateSlug str
  /\ (is_slug (String.list_ascii_of_string str) = true ->
      generateSlug str = str).
Proof.
  unfold generateSlug. rewrite !String.list_ascii_of_string_of_list_ascii.
  split; [apply generateSlug_units_is_slug|]. split.
  - rewrite (generateSlug_units_fixes_slug _ (generateSlug_units_is_slug _)).
    reflexivity.
  - intros H. rewrite (generateSlug_units_fixes_slug _ H).
    apply String.string_of_list_ascii_of_string.
Qed.

Lemma is_char_eq x c : is_char x c = true -> c = x.
Proof.
  unfold is_char, code. intros H. apply Nat.eqb_eq in H.
  rewrite <- (ascii_nat_embedding c), H. apply ascii_nat_embedding.
Qed.

Lemma take_drop_leading P l :
  l = take_leading P l ++ drop_leading P l
  /\ forallb P (take_leading P l) = true.
Proof.
  induction l as [|c l [IH1 IH2]]; [split; reflexivity|].
  cbn. destruct (P c) eqn:Hc; [|split; reflexivity].
  cbn. rewrite Hc, IH2. split; [f_equal; exact IH1|reflexivity].
Qed.

Lemma take_drop_leading_app P a x r :
  forallb P a = true -> P x = false ->
  take_leading P (a ++ x :: r) = a /\ drop_leading P (a ++ x :: r) = x :: r.
Proof.
  intros Ha Hx. induction a as [|c a IH].
  - cbn. rewrite Hx. split; reflexivity.
  - cbn in Ha. apply andb_true_iff in Ha as [Hc Ha].
    destruct (IH Ha) as [IH1 IH2]. cbn. rewrite Hc, IH1, IH2.
    split; reflexivity.
Qed.

(** X29. [isValidEmail] accepts exactly the texts of the form
    [a@b.c] in which [a], [b] and [c] are not empty and hold neither white
    space nor [@]; so an accepted text has one [@], and a dot after it that
    is neither the first nor the last code unit of the domain. *)
Theorem isValidEmail_accepts_exactly email :
  isValidEmail email = true
  <-> exists a b c,
        String.list_ascii_of_string email = a ++ "@"%char :: b ++ "."%char :: c
        /\ a <> [] /\ b <> [] /\ c <> []
        /\ forallb email_char a = true
        /\ forallb email_char b = true
        /\ forallb email_char c = true.
Proof.
  unfold isValidEmail, isValidEmail_units.
  generalize (String.list_ascii_of_string email). intros l. split.
  - destruct (take_drop_leading email_char l) as [Hl Ha].
    destruct (take_leading email_char l) as [|x xs] eqn:Htake; [discriminate|].
    destruct (drop_leading email_char l) as [|at_sign domain] eqn:Hdrop;
      [discriminate|].
    intros H. apply andb_true_iff in H as [H Hdot].
    apply andb_true_iff in H as [Hat Hdom].
    apply is_char_eq in Hat as ->.
    destruct domain as [|d rest]; [discriminate|].
    apply existsb_exists in Hdot as (dot & Hin & Hdot).
    apply is_char_eq in Hdot as ->.
    apply in_split in Hin as (p & q & Hsplit).
    assert (Hrest : rest <> []).
    { intros ->. destruct p; discriminate Hsplit. }
    pose proof (app_removelast_last "."%char Hrest) as Hlast.
    rewrite Hsplit in Hlast.
    revert Hlast. generalize (List.last rest "."%char). intros z Hlast.
    exists (x :: xs), (d :: p), (q ++ [z]).
    split.
    { rewrite Hl. cbn. do 3 f_equal. rewrite Hlast, <- app_assoc. reflexivity. }
    split; [discriminate|]. split; [discriminate|].
    split; [destruct q; discriminate|]. split; [exact Ha|].
    rewrite Hlast in Hdom. cbn [forallb] in Hdom.
    rewrite !forallb_app in Hdom. cbn [forallb] in Hdom.
    rewrite ?forallb_app in Hdom. rewrite forallb_app. cbn [forallb] in *.
    rewrite !andb_true_iff in Hdom. rewrite !andb_true_iff. tauto.
  - intros (a & b & c & -> & Ha0 & Hb0 & Hc0 & Ha & Hb & Hc).
    destruct (take_drop_leading_app email_char a "@"%char
                (b ++ "."%char :: c) Ha eq_refl) as [-> ->].
    destruct a as [|x xs]; [destruct (Ha0 eq_refl)|].
    destruct b as [|d b']; [destruct (Hb0 eq_refl)|].
    cbn [app]. rewrite !andb_true_iff. split; [split; [reflexivity|]|].
    + cbn [forallb] in *. rewrite forallb_app. cbn [forallb].
      apply andb_true_iff in Hb as [-> ->]. rewrite Hc. reflexivity.
    + apply existsb_exists. exists "."%char. split; [|reflexivity].
      rewrite removelast_app by discriminate. apply in_or_app. right.
      destruct c as [|z c']; [destruct (Hc0 eq_refl)|]. left. reflexivity.
Qed.

End TextHelperProperties.

Lemma sanitizeInput_removes_tags_witness :
  TextHelpers.sanitizeInput "a < b" = "a < b"
  /\ TextHelpers.sanitizeInput "<b>bold</b> text" = "bold text".
Proof.
  split; [|reflexivity].
  apply (sanitizeInput_removes_tags "a < b"). reflexivity.
Defined.

Lemma generateSlug_returns_slug_witness :
  TextHelpers.generateSlug "hello-world-2" = "hello-world-2"
  /\ TextHelpers.generateSlug "  Hello,  World -- 2!  " = "hello-world-2".
Proof.
  split; [|reflexivity].
  apply (generateSlug_returns_slug "hello-world-2"). reflexivity.
Defined.

Lemma isValidEmail_accepts_exactly_witness :
  TextHelpers.isValidEmail "root@example.com" = true
  /\ TextHelpers.isValidEmail "root@example." = false.
Proof.
  split; [|reflexivity].
  apply (isValidEmail_accepts_exactly "root@example.com").
  exists (String.list_ascii_of_string "root"),
    (String.list_ascii_of_string "example"),
    (String.list_ascii_of_string "com").
  repeat split; try discriminate; reflexivity.
Defined.
